(** * llmperf token benchmark: scheduler, normaliser and summary aggregator

    A shallow embedding of [token_benchmark_ray.py] and
    [llmperf/models.py].

    Conventions of the embedding.
    - A Python [int] is a [Z]; a Python [float] is an exact rational [Q]:
      rounding is not modelled, the raising of [ZeroDivisionError] by the
      Python operators is.
    - A metrics dictionary is a finite map from the key constants of
      [llmperf.common_metrics] to Python values.  That module is not part
      of the sources at hand; its constants are taken as the pairwise
      distinct names of an enumeration.
    - The tokenizer, the monotonic clock, the requests launcher and the
      random sampler are collaborators outside the sources; they enter as
      the fields of an environment record and every statement is
      quantified over them.
    - A pandas column in which every row holds an integer of 64 bits is
      an integer column: its sum is taken in 64 bits and wraps around.
    - Printing, logging and the progress bar are left out.
    - The run records what it does to the launcher in a trace, which is
      what the statements about the drain schedule read. *)

From Stdlib Require Import ZArith QArith Qround String Ascii List Lia Lqa.
From stdpp Require Import base option list gmap strings.

Local Open Scope Z_scope.

(** ** Python values and exceptions *)

#[warnings="-register-all"]
Inductive value : Type :=
  | VNone
  | VInt (z : Z)
  | VFloat (q : Q)
  | VStr (s : string)
  | VList (l : list value).

Inductive exn : Type :=
  | KeyError
  | ZeroDivisionError
  | TypeError
  | IndexError
  | ValueError
  | ValidationError
  | AttributeError
  | SystemExit.

Inductive result (A : Type) : Type :=
  | Ok (a : A)
  | Raise (e : exn).
Arguments Ok {A} a.
Arguments Raise {A} e.

Definition result_bind {A B} (r : result A) (k : A -> result B) : result B :=
  match r with
  | Ok a => k a
  | Raise e => Raise e
  end.

#[global] Instance result_ret : MRet result := fun A a => Ok a.
#[global] Instance result_mbind : MBind result :=
  fun A B k r => result_bind r k.

(** The keys of [llmperf.common_metrics]. *)
Inductive metric_key : Type :=
  | INTER_TOKEN_LAT
  | TTFT
  | E2E_LAT
  | REQ_OUTPUT_THROUGHPUT
  | NUM_INPUT_TOKENS
  | NUM_OUTPUT_TOKENS
  | NUM_TOTAL_TOKENS
  | ERROR_CODE
  | ERROR_MSG.

#[global] Instance metric_key_eq_dec : EqDecision metric_key.
Proof. solve_decision. Defined.

Definition metric_key_code (k : metric_key) : nat :=
  match k with
  | INTER_TOKEN_LAT => 0 | TTFT => 1 | E2E_LAT => 2
  | REQ_OUTPUT_THROUGHPUT => 3 | NUM_INPUT_TOKENS => 4
  | NUM_OUTPUT_TOKENS => 5 | NUM_TOTAL_TOKENS => 6
  | ERROR_CODE => 7 | ERROR_MSG => 8
  end%nat.

Definition metric_key_of_code (n : nat) : metric_key :=
  match n with
  | 0 => INTER_TOKEN_LAT | 1 => TTFT | 2 => E2E_LAT
  | 3 => REQ_OUTPUT_THROUGHPUT | 4 => NUM_INPUT_TOKENS
  | 5 => NUM_OUTPUT_TOKENS | 6 => NUM_TOTAL_TOKENS
  | 7 => ERROR_CODE | _ => ERROR_MSG
  end%nat.

#[global] Instance metric_key_countable : Countable metric_key.
Proof.
  apply (inj_countable' metric_key_code metric_key_of_code).
  intros k. destruct k; reflexivity.
Defined.

(** A metrics dictionary, as the clients hand it back and as the
    normaliser mutates it. *)
Abbreviation metrics := (gmap metric_key value).

(** Truth value of a Python object in a condition. *)
Definition truthy (v : value) : bool :=
  match v with
  | VNone => false
  | VInt z => negb (z =? 0)
  | VFloat q => negb (Qeq_bool q 0)
  | VStr s => negb (String.eqb s "")
  | VList l => match l with [] => false | _ => true end
  end.

Definition as_number (v : value) : option Q :=
  match v with
  | VInt z => Some (inject_Z z)
  | VFloat q => Some q
  | _ => None
  end.

(** [a / b]: true division; a zero divisor raises, a non number is a
    type error. *)
Definition py_truediv (a b : value) : result value :=
  match as_number a, as_number b with
  | Some x, Some y =>
      if Qeq_bool y 0 then Raise ZeroDivisionError
      else Ok (VFloat (x / y)%Q)
  | _, _ => Raise TypeError
  end.

(** [a + b]. *)
Definition py_add (a b : value) : result value :=
  match a, b with
  | VInt x, VInt y => Ok (VInt (x + y))
  | VInt x, VFloat y => Ok (VFloat (inject_Z x + y)%Q)
  | VFloat x, VInt y => Ok (VFloat (x + inject_Z y)%Q)
  | VFloat x, VFloat y => Ok (VFloat (x + y)%Q)
  | VStr x, VStr y => Ok (VStr (x ++ y))
  | VList x, VList y => Ok (VList (x ++ y))
  | _, _ => Raise TypeError
  end.

(** ** Statements over one metrics dictionary

    The drains mutate the dictionary of a request in place.  A statement
    takes the dictionary and gives it back together with its outcome: a
    raise stops the statements that follow but keeps the writes already
    made. *)

Definition stmt (A : Type) : Type := metrics -> result A * metrics.

#[global] Instance stmt_ret : MRet stmt := fun A a m => (Ok a, m).
#[global] Instance stmt_mbind : MBind stmt :=
  fun A B k c m =>
    match c m with
    | (Ok a, m') => k a m'
    | (Raise e, m') => (Raise e, m')
    end.

Definition getitem (k : metric_key) : stmt value :=
  fun m =>
    match m !! k with
    | Some v => (Ok v, m)
    | None => (Raise KeyError, m)
    end.

Definition setitem (k : metric_key) (v : value) : stmt unit :=
  fun m => (Ok tt, <[k:=v]> m).

Definition lift {A} (r : result A) : stmt A :=
  fun m => (r, m).

(** [request_metrics[k] /= n]. *)
Definition idiv_item (k : metric_key) (n : value) : stmt unit :=
  x ← getitem k;
  y ← lift (py_truediv x n);
  setitem k y.

(** Lines 134-142 and 162-170: the part the two drains have in common. *)
Definition normalize_tokens (num_output_tokens : Z) : stmt unit :=
  (if truthy (VInt num_output_tokens)
   then idiv_item INTER_TOKEN_LAT (VInt num_output_tokens)
   else setitem INTER_TOKEN_LAT (VInt 0));;
  setitem NUM_OUTPUT_TOKENS (VInt num_output_tokens);;
  a ← getitem NUM_INPUT_TOKENS;
  t ← lift (py_add a (VInt num_output_tokens));
  setitem NUM_TOTAL_TOKENS t.

(** Lines 171-173: the throughput assignment. *)
Definition set_throughput (num_output_tokens : Z) : stmt unit :=
  e ← getitem E2E_LAT;
  q ← lift (py_truediv (VInt num_output_tokens) e);
  setitem REQ_OUTPUT_THROUGHPUT q.

(** Lines 134-146: body of the drain inside the loop. *)
Definition normalize_in_loop (num_output_tokens : Z) : stmt unit :=
  normalize_tokens num_output_tokens;;
  e ← getitem E2E_LAT;
  if truthy e then set_throughput num_output_tokens else mret tt.

(** Lines 162-173: body of the drain after the loop. *)
Definition normalize_final (num_output_tokens : Z) : stmt unit :=
  normalize_tokens num_output_tokens;;
  set_throughput num_output_tokens.

(** ** The request description ([llmperf/models.py]) *)

Abbreviation pydict := (gmap string value).

Module models.

Record RequestConfig : Type := {
  model : string;
  prompt : string * Z;
  sampling_params : option pydict;
  llm_api : option string;
  metadata : option pydict;
  header_params : option pydict;
  verify_ssl : option bool
}.

(** The settings a pydantic model class can declare.  [BaseModel] has
    [frozen = False]; [RequestConfig] declares no configuration of its
    own and so inherits it. *)
Record ConfigDict : Type := { frozen : bool }.

Definition BaseModel_config : ConfigDict := {| frozen := false |}.
Definition RequestConfig_config : ConfigDict := BaseModel_config.

(** An attribute assignment [c.<field> = v], one constructor per field. *)
Inductive assignment : Type :=
  | SetModel (v : string)
  | SetPrompt (v : string * Z)
  | SetSamplingParams (v : option pydict)
  | SetLlmApi (v : option string)
  | SetMetadata (v : option pydict)
  | SetHeaderParams (v : option pydict)
  | SetVerifySsl (v : option bool).

Definition assign (a : assignment) (c : RequestConfig) : RequestConfig :=
  match a with
  | SetModel v =>
      {| model := v; prompt := prompt c;
         sampling_params := sampling_params c; llm_api := llm_api c;
         metadata := metadata c; header_params := header_params c;
         verify_ssl := verify_ssl c |}
  | SetPrompt v =>
      {| model := model c; prompt := v;
         sampling_params := sampling_params c; llm_api := llm_api c;
         metadata := metadata c; header_params := header_params c;
         verify_ssl := verify_ssl c |}
  | SetSamplingParams v =>
      {| model := model c; prompt := prompt c;
         sampling_params := v; llm_api := llm_api c;
         metadata := metadata c; header_params := header_params c;
         verify_ssl := verify_ssl c |}
  | SetLlmApi v =>
      {| model := model c; prompt := prompt c;
         sampling_params := sampling_params c; llm_api := v;
         metadata := metadata c; header_params := header_params c;
         verify_ssl := verify_ssl c |}
  | SetMetadata v =>
      {| model := model c; prompt := prompt c;
         sampling_params := sampling_params c; llm_api := llm_api c;
         metadata := v; header_params := header_params c;
         verify_ssl := verify_ssl c |}
  | SetHeaderParams v =>
      {| model := model c; prompt := prompt c;
         sampling_params := sampling_params c; llm_api := llm_api c;
         metadata := metadata c; header_params := v;
         verify_ssl := verify_ssl c |}
  | SetVerifySsl v =>
      {| model := model c; prompt := prompt c;
         sampling_params := sampling_params c; llm_api := llm_api c;
         metadata := metadata c; header_params := header_params c;
         verify_ssl := v |}
  end.

(** [BaseModel.__setattr__]: refused on a frozen class, performed
    otherwise. *)
Definition setattr (cfg : ConfigDict) (c : RequestConfig) (a : assignment)
  : result RequestConfig :=
  if frozen cfg then Raise ValidationError else Ok (assign a c).

Definition RequestConfig_setattr := setattr RequestConfig_config.

(** The fields, and reading one of them. *)
Inductive attribute : Type :=
  | Model | Prompt | SamplingParams | LlmApi | Metadata | HeaderParams
  | VerifySsl.

Definition attribute_of (a : assignment) : attribute :=
  match a with
  | SetModel _ => Model
  | SetPrompt _ => Prompt
  | SetSamplingParams _ => SamplingParams
  | SetLlmApi _ => LlmApi
  | SetMetadata _ => Metadata
  | SetHeaderParams _ => HeaderParams
  | SetVerifySsl _ => VerifySsl
  end.

(** [c.<field>], as the assignment that would store the same value. *)
Definition read (f : attribute) (c : RequestConfig) : assignment :=
  match f with
  | Model => SetModel (model c)
  | Prompt => SetPrompt (prompt c)
  | SamplingParams => SetSamplingParams (sampling_params c)
  | LlmApi => SetLlmApi (llm_api c)
  | Metadata => SetMetadata (metadata c)
  | HeaderParams => SetHeaderParams (header_params c)
  | VerifySsl => SetVerifySsl (verify_ssl c)
  end.

End models.

Abbreviation RequestConfig := models.RequestConfig.

(** ** Collaborators *)

(** What [get_next_ready] yields for one finished request:
    [(request_metrics, gen_text, request_config)]. *)
Definition out : Type := metrics * string * RequestConfig.

Record env : Type := {
  (** [len(tokenizer.encode(text))] *)
  get_token_length : string -> nat;
  (** [generate_maximum_text_prompt(tokenizer)] *)
  generate_maximum_text_prompt : string * Z;
  (** the value of the [k]-th call of [time.monotonic()] *)
  monotonic : nat -> Q;
  (** the list the [k]-th call of [req_launcher.get_next_ready()] returns *)
  get_next_ready : nat -> list out;
  (** the value of the [k]-th call of [sample_random_positive_int] *)
  sample_random_positive_int : Z -> Z -> nat -> Z
}.

(** ** The two drains *)

(** The body of a drain on one [out]: the outcome and the dictionary as
    the statements left it. *)
Definition run_normalizer (E : env) (norm : Z -> stmt unit) (o : out)
  : result unit * metrics :=
  let '(request_metrics, gen_text, _) := o in
  let num_output_tokens := Z.of_nat (get_token_length E gen_text) in
  norm num_output_tokens request_metrics.

(** The dictionary reaches [all_metrics] only when no statement raised. *)
Definition normalize_out (E : env) (norm : Z -> stmt unit) (o : out)
  : result metrics :=
  match run_normalizer E norm o with
  | (Ok _, m) => Ok m
  | (Raise e, _) => Raise e
  end.

(** [for out in outs: ...; all_metrics.append(request_metrics)] *)
Fixpoint drain (E : env) (norm : Z -> stmt unit) (outs : list out)
  : result (list metrics) :=
  match outs with
  | [] => Ok []
  | o :: outs' =>
      m ← normalize_out E norm o;
      ms ← drain E norm outs';
      Ok (m :: ms)
  end.

Definition drain_in_loop (E : env) := drain E normalize_in_loop.
Definition drain_final (E : env) := drain E normalize_final.

(** ** The summary aggregator ([metrics_summary])

    The part of pandas the function uses.  A frame built from a list of
    dictionaries has one row per dictionary and one column per key that
    occurs in some dictionary; a row without the key holds NaN there,
    written [None] below.  Indexing a frame by a key that is no column
    raises [KeyError]. *)

Record DataFrame : Type := {
  columns : gset metric_key;
  rows : list metrics
}.

Definition pd_DataFrame (ms : list metrics) : DataFrame :=
  {| columns := ⋃ (dom <$> ms); rows := ms |}.

(** [df[key]] *)
Definition column (df : DataFrame) (key : metric_key)
  : result (list (option value)) :=
  if decide (key ∈ columns df)
  then Ok ((fun r : metrics => r !! key) <$> rows df)
  else Raise KeyError.

Definition isna (o : option value) : bool :=
  match o with
  | None | Some VNone => true
  | Some _ => false
  end.

(** [series.dropna()] *)
Definition dropna (s : list (option value)) : list value :=
  omap (fun o => if isna o then None else o) s.

(** [df[df[ERROR_CODE].isna()]] *)
Definition without_errored (df : DataFrame) : result DataFrame :=
  _ ← column df ERROR_CODE;
  Ok {| columns := columns df;
        rows := List.filter (fun r : metrics => isna (r !! ERROR_CODE))
                  (rows df) |}.

(** The local generator [flatten]: lists are walked, everything else,
    a string included, is yielded as it is. *)
Fixpoint flatten_value (v : value) : list value :=
  match v with
  | VList l => List.flat_map flatten_value l
  | _ => [v]
  end.

Definition flatten (s : list (option value)) : list (option value) :=
  List.flat_map
    (fun o => match o with
              | None => [None]
              | Some v => Some <$> flatten_value v
              end) s.

(** A numpy float: what the statistics and the throughput division give. *)
Inductive np_float : Type :=
  | NpFinite (q : Q)
  | NpInf
  | NpNegInf
  | NpNaN.

(** Division of numpy scalars: a zero divisor gives an infinity or NaN
    and a warning, not an exception. *)
Definition np_truediv (a b : Q) : np_float :=
  if Qeq_bool b 0 then
    if Qeq_bool a 0 then NpNaN
    else if Qle_bool 0 a then NpInf else NpNegInf
  else NpFinite (a / b)%Q.

Fixpoint numbers (l : list value) : result (list Q) :=
  match l with
  | [] => Ok []
  | v :: l' =>
      match as_number v with
      | Some q => qs ← numbers l'; Ok (q :: qs)
      | None => Raise TypeError
      end
  end.

Definition Qsum (l : list Q) : Q := List.fold_right Qplus 0%Q l.

Fixpoint Qinsert (x : Q) (l : list Q) : list Q :=
  match l with
  | [] => [x]
  | y :: l' => if Qle_bool x y then x :: l else y :: Qinsert x l'
  end.

Definition Qsort (l : list Q) : list Q := List.fold_right Qinsert [] l.

Definition Qlen (l : list Q) : Q := inject_Z (Z.of_nat (length l)).

(** [series.quantile(p)], linear interpolation between the two nearest
    ranks; NaN on an empty series. *)
Definition quantile (l : list Q) (p : Q) : np_float :=
  match Qsort l with
  | [] => NpNaN
  | (x0 :: _) as sorted =>
      let h := ((Qlen l - 1) * p)%Q in
      let lo := Z.to_nat (Qfloor h) in
      let x_lo := List.nth lo sorted x0 in
      let x_hi := List.nth (S lo) sorted x_lo in
      NpFinite (x_lo + (h - inject_Z (Qfloor h)) * (x_hi - x_lo))%Q
  end.

Definition series_mean (l : list Q) : np_float :=
  match l with
  | [] => NpNaN
  | _ => NpFinite (Qsum l / Qlen l)%Q
  end.

Definition series_min (l : list Q) : np_float :=
  match Qsort l with
  | [] => NpNaN
  | x :: _ => NpFinite x
  end.

Definition series_max (l : list Q) : np_float :=
  match Qsort l with
  | [] => NpNaN
  | x :: sorted => NpFinite (List.last sorted x)
  end.

(** The square of [series.std()]: the sample variance, denominator
    [N - 1].  The root itself is not a rational and is left out. *)
Definition series_var (l : list Q) : np_float :=
  match l with
  | [] | [_] => NpNaN
  | _ =>
      let mu := (Qsum l / Qlen l)%Q in
      NpFinite
        (Qsum ((fun x => (x - mu) * (x - mu))%Q <$> l) / (Qlen l - 1))%Q
  end.

Record field_stats : Type := {
  quantiles : list (string * np_float);
  mean : np_float;
  minimum : np_float;
  maximum : np_float;
  stddev_squared : np_float
}.

(** The body of the loop over the tracked keys, lines 242-259. *)
Definition summarize_key (df_without_errored_req : DataFrame)
    (key : metric_key) : result field_stats :=
  col ← column df_without_errored_req key;
  series ← numbers (dropna (flatten col));
  Ok {| quantiles :=
          [ ("p25"%string, quantile series (25 # 100));
            ("p50"%string, quantile series (50 # 100));
            ("p75"%string, quantile series (75 # 100));
            ("p90"%string, quantile series (90 # 100));
            ("p95"%string, quantile series (95 # 100));
            ("p99"%string, quantile series (99 # 100)) ];
        mean := series_mean series;
        minimum := series_min series;
        maximum := series_max series;
        stddev_squared := series_var series |}.

Definition tracked_keys : list metric_key :=
  [ INTER_TOKEN_LAT; TTFT; E2E_LAT; REQ_OUTPUT_THROUGHPUT;
    NUM_INPUT_TOKENS; NUM_OUTPUT_TOKENS ].

Fixpoint summarize_keys (df : DataFrame) (keys : list metric_key)
  : result (list (metric_key * field_stats)) :=
  match keys with
  | [] => Ok []
  | key :: keys' =>
      st ← summarize_key df key;
      rest ← summarize_keys df keys';
      Ok ((key, st) :: rest)
  end.

(** [error_codes.value_counts()]: the codes are hashed, which a list
    refuses.  The table itself only feeds a printed string and is not
    kept. *)
Definition value_counts (codes : list value) : result unit :=
  if List.existsb (fun v => match v with VList _ => true | _ => false end)
       codes
  then Raise TypeError else Ok tt.

(** The type pandas gives a column when the frame is built.  A column
    in which every row holds an integer that fits 64 signed bits is an
    [int64] column; one of non negative integers that fit 64 unsigned
    bits, not all of them 63, is a [uint64] column; any other column
    ([float64], with NaN for the missing rows, or [object]) keeps its
    numbers as they are. *)
Inductive dtype : Type :=
  | DInt64
  | DUInt64
  | DOther.

Definition int64_bound : Z := 9223372036854775808.
Definition int64_modulus : Z := 18446744073709551616.

Definition is_int64 (o : option value) : bool :=
  match o with
  | Some (VInt z) => (- int64_bound <=? z) && (z <? int64_bound)
  | _ => false
  end.

Definition is_uint64 (o : option value) : bool :=
  match o with
  | Some (VInt z) => (0 <=? z) && (z <? int64_modulus)
  | _ => false
  end.

Definition infer_dtype (col : list (option value)) : dtype :=
  match col with
  | [] => DOther
  | _ =>
      if List.forallb is_int64 col then DInt64
      else if List.forallb is_uint64 col then DUInt64
      else DOther
  end.

(** Addition in 64 bits wraps around. *)
Definition wrap_int64 (z : Z) : Z :=
  (z + int64_bound) mod int64_modulus - int64_bound.

Definition wrap_uint64 (z : Z) : Z := z mod int64_modulus.

Fixpoint int_sum (col : list (option value)) : Z :=
  match col with
  | [] => 0
  | Some (VInt z) :: col' => z + int_sum col'
  | _ :: col' => int_sum col'
  end.

(** [series.sum()] on the rows [col] selected from a column whose rows
    in the whole frame are [frame_col]: the selection keeps the type of
    the column.  An integer column is summed in its 64 bits; in any
    other column the missing entries are skipped and the numbers
    added. *)
Definition column_sum (frame_col col : list (option value)) : result Q :=
  match infer_dtype frame_col with
  | DInt64 => Ok (inject_Z (wrap_int64 (int_sum col)))
  | DUInt64 => Ok (inject_Z (wrap_uint64 (int_sum col)))
  | DOther => qs ← numbers (dropna col); Ok (Qsum qs)
  end.

(** [num_errors / len(metrics) if len(metrics) else 0], line 265. *)
Definition error_rate_expr (num_errors len_metrics : Z) : result value :=
  if truthy (VInt len_metrics)
  then py_truediv (VInt num_errors) (VInt len_metrics)
  else Ok (VInt 0).

(** [a * b] on numbers. *)
Definition py_mul (a b : value) : result value :=
  match a, b with
  | VInt x, VInt y => Ok (VInt (x * y))
  | _, _ =>
      match as_number a, as_number b with
      | Some x, Some y => Ok (VFloat (x * y)%Q)
      | _, _ => Raise TypeError
      end
  end.

Record report : Type := {
  per_key : list (metric_key * field_stats);
  num_requests_started : Z;
  error_rate : value;
  number_errors : Z;
  output_throughput : np_float;
  num_completed_requests : Z;
  completed_requests_per_min : value
}.

Definition metrics_summary (ms : list metrics) (start_time end_time : Q)
  : result report :=
  let df := pd_DataFrame ms in
  df_without_errored_req ← without_errored df;
  stats ← summarize_keys df_without_errored_req tracked_keys;
  codes ← column df ERROR_CODE;
  let error_codes := dropna codes in
  let num_errors := Z.of_nat (length error_codes) in
  rate ← error_rate_expr num_errors (Z.of_nat (length ms));
  _ ← value_counts error_codes;
  tokens ← column df_without_errored_req NUM_OUTPUT_TOKENS;
  total ← column_sum
            ((fun r : metrics => r !! NUM_OUTPUT_TOKENS) <$> rows df) tokens;
  let overall_output_throughput :=
    np_truediv total (end_time - start_time)%Q in
  let num_completed := Z.of_nat (length (rows df_without_errored_req)) in
  per_sec ← py_truediv (VInt num_completed)
              (VFloat (end_time - start_time)%Q);
  per_min ← py_mul per_sec (VInt 60);
  Ok {| per_key := stats;
        num_requests_started := Z.of_nat (length ms);
        error_rate := rate;
        number_errors := num_errors;
        output_throughput := overall_output_throughput;
        num_completed_requests := num_completed;
        completed_requests_per_min := per_min |}.

(** ** The scheduler and drain loop ([get_token_throughput_latencies]) *)

Record params : Type := {
  model : string;
  mean_output_tokens : Z;
  stddev_output_tokens : Z;
  additional_sampling_params : option pydict;
  num_concurrent_requests : Z;
  max_num_completed_requests : Z;
  test_timeout_s : Q;
  llm_api : string;
  custom_prompt : option string;
  header_params : option pydict;
  verify_ssl : option bool
}.

(** What the run does to the launcher, in order. *)
Inductive event : Type :=
  | Launched (iter : Z) (request_config : RequestConfig)
  | Drained (iter : Z)
  | FinalDrained.

Record sched : Type := {
  clock_calls : nat;
  drain_calls : nat;
  iter : Z;
  num_output_tokens_list : list Z;
  prompts : list (string * Z);
  completed_requests : list metrics;
  trace : list event
}.

(** [l.pop()]: the last element, [IndexError] on an empty list. *)
Definition py_pop {A} (l : list A) : result (A * list A) :=
  match reverse l with
  | [] => Raise IndexError
  | x :: r => Ok (x, reverse r)
  end.

(** Lines 92-97. *)
Definition prompt_input (E : env) (P : params) : string * Z :=
  match custom_prompt P with
  | Some text =>
      if truthy (VStr text)
      then (text, Z.of_nat (get_token_length E text))
      else generate_maximum_text_prompt E
  | None => generate_maximum_text_prompt E
  end.

(** Lines 78-79. *)
Definition sampling_base (P : params) : pydict :=
  match additional_sampling_params P with
  | Some d => d
  | None => ∅
  end.

(** Lines 99-104: [range(n)] is empty for [n <= 0]. *)
Definition sampled_tokens (E : env) (P : params) : list Z :=
  (fun i => sample_random_positive_int E
              (mean_output_tokens P) (stddev_output_tokens P) i)
    <$> seq 0 (Z.to_nat (max_num_completed_requests P)).

Definition initial (E : env) (P : params) : sched :=
  {| clock_calls := 1;
     drain_calls := 0;
     iter := 0;
     num_output_tokens_list := sampled_tokens E P;
     prompts := replicate (Z.to_nat (max_num_completed_requests P))
                  (prompt_input E P);
     completed_requests := [];
     trace := [] |}.

Definition Qlt_bool (a b : Q) : bool := negb (Qle_bool b a).

(** Lines 109-112: the clock is read, then the count is compared. *)
Definition loop_test (E : env) (P : params) (start_time : Q) (st : sched)
  : bool * sched :=
  let now := monotonic E (clock_calls st) in
  (Qlt_bool (now - start_time) (test_timeout_s P)
     && (Z.of_nat (length (completed_requests st))
           <? max_num_completed_requests P),
   {| clock_calls := S (clock_calls st);
      drain_calls := drain_calls st;
      iter := iter st;
      num_output_tokens_list := num_output_tokens_list st;
      prompts := prompts st;
      completed_requests := completed_requests st;
      trace := trace st |}).

(** [req_launcher.get_next_ready()], recorded as [ev]. *)
Definition call_get_next_ready (E : env) (ev : event) (st : sched)
  : list out * sched :=
  (get_next_ready E (drain_calls st),
   {| clock_calls := clock_calls st;
      drain_calls := S (drain_calls st);
      iter := iter st;
      num_output_tokens_list := num_output_tokens_list st;
      prompts := prompts st;
      completed_requests := completed_requests st;
      trace := trace st ++ [ev] |}).

(** [completed_requests.extend(all_metrics)] *)
Definition extend_completed (all_metrics : list metrics) (st : sched)
  : sched :=
  {| clock_calls := clock_calls st;
     drain_calls := drain_calls st;
     iter := iter st;
     num_output_tokens_list := num_output_tokens_list st;
     prompts := prompts st;
     completed_requests := completed_requests st ++ all_metrics;
     trace := trace st |}.

(** Lines 129-148. *)
Definition drain_step (E : env) (P : params) (st : sched) : result sched :=
  if num_concurrent_requests P =? 0 then Raise ZeroDivisionError
  else if iter st mod num_concurrent_requests P =? 0 then
    let '(outs, st1) := call_get_next_ready E (Drained (iter st)) st in
    all_metrics ← drain_in_loop E outs;
    Ok (extend_completed all_metrics st1)
  else Ok st.

(** Lines 113-150: one iteration. *)
Definition loop_body (E : env) (P : params) (st : sched) : result sched :=
  let iter' := iter st + 1 in
  '(max_tokens, tokens') ← py_pop (num_output_tokens_list st);
  let default_sampling_params : pydict :=
    sampling_base P ∪ {[ "max_tokens"%string := VInt max_tokens ]} in
  '(prompt, prompts') ← py_pop (prompts st);
  let request_config :=
    {| models.model := model P;
       models.prompt := prompt;
       models.sampling_params := Some default_sampling_params;
       models.llm_api := Some (llm_api P);
       models.metadata := None;
       models.header_params := header_params P;
       models.verify_ssl := verify_ssl P |} in
  drain_step E P
    {| clock_calls := clock_calls st;
       drain_calls := drain_calls st;
       iter := iter';
       num_output_tokens_list := tokens';
       prompts := prompts';
       completed_requests := completed_requests st;
       trace := trace st ++ [Launched iter' request_config] |}.

(** The [while] loop, lines 109-150.  [None] stands for a loop that is
    still running when the fuel is spent. *)
Fixpoint scheduler_loop (E : env) (P : params) (start_time : Q)
    (fuel : nat) (st : sched) : option (result sched) :=
  match fuel with
  | O => None
  | S fuel' =>
      let '(continue, st1) := loop_test E P start_time st in
      if continue then
        match loop_body E P st1 with
        | Ok st2 => scheduler_loop E P start_time fuel' st2
        | Raise e => Some (Raise e)
        end
      else Some (Ok st1)
  end.

(** Lines 153-176: the end time is read and the launcher is drained once
    more. *)
Definition final_drain (E : env) (st : sched) : result (Q * sched) :=
  let end_time := monotonic E (clock_calls st) in
  let st0 :=
    {| clock_calls := S (clock_calls st);
       drain_calls := drain_calls st;
       iter := iter st;
       num_output_tokens_list := num_output_tokens_list st;
       prompts := prompts st;
       completed_requests := completed_requests st;
       trace := trace st |} in
  let '(outs, st1) := call_get_next_ready E FinalDrained st0 in
  all_metrics ← drain_final E outs;
  Ok (end_time, extend_completed all_metrics st1).

(** Every iteration pops one entry of a list that is never refilled, so
    one unit of fuel more than the list is long is enough. *)
Definition loop_fuel (st : sched) : nat :=
  S (length (num_output_tokens_list st)).

Record run_metadata : Type := {
  md_model : string;
  md_mean_input_tokens : Z;
  md_stddev_input_tokens : Z;
  md_mean_output_tokens : Z;
  md_stddev_output_tokens : Z;
  md_num_concurrent_requests : Z;
  md_additional_sampling_params : pydict;
  md_prompt : string;
  md_results : report
}.

(** The run up to the last drain: the end time and the scheduler state
    the summary is computed from. *)
Definition benchmark_run (E : env) (P : params)
  : option (result (Q * sched)) :=
  let st0 := initial E P in
  match scheduler_loop E P (monotonic E 0) (loop_fuel st0) st0 with
  | None => None
  | Some (Raise e) => Some (Raise e)
  | Some (Ok st) => Some (final_drain E st)
  end.

Definition get_token_throughput_latencies (E : env) (P : params)
  : option (result (run_metadata * list metrics)) :=
  match benchmark_run E P with
  | None => None
  | Some r =>
      Some ('(end_time, st) ← r;
            ret ← metrics_summary (completed_requests st)
                    (monotonic E 0) end_time;
            Ok ({| md_model := model P;
                   md_mean_input_tokens :=
                     snd (prompt_input E P);
                   md_stddev_input_tokens := 0;
                   md_mean_output_tokens := mean_output_tokens P;
                   md_stddev_output_tokens := stddev_output_tokens P;
                   md_num_concurrent_requests := num_concurrent_requests P;
                   md_additional_sampling_params := sampling_base P;
                   md_prompt := fst (prompt_input E P);
                   md_results := ret |},
                completed_requests st))
  end.

(** ** The script entry point (lines 360-489) *)

Module script.

(** One [add_argument] call: the flag, the attribute it is stored under,
    whether [type=int], and the default ([None] for [required=True]). *)
Record argument : Type := {
  flag : string;
  dest : string;
  is_int : bool;
  default : option value
}.

Definition arguments : list argument :=
  [ {| flag := "--model"; dest := "model";
       is_int := false; default := None |};
    {| flag := "--mean-input-tokens"; dest := "mean_input_tokens";
       is_int := true; default := Some (VInt 550) |};
    {| flag := "--stddev-input-tokens"; dest := "stddev_input_tokens";
       is_int := true; default := Some (VInt 150) |};
    {| flag := "--mean-output-tokens"; dest := "mean_output_tokens";
       is_int := true; default := Some (VInt 150) |};
    {| flag := "--stddev-output-tokens"; dest := "stddev_output_tokens";
       is_int := true; default := Some (VInt 80) |};
    {| flag := "--num-concurrent-requests";
       dest := "num_concurrent_requests";
       is_int := true; default := Some (VInt 10) |};
    {| flag := "--timeout"; dest := "timeout";
       is_int := true; default := Some (VInt 90) |};
    {| flag := "--max-num-completed-requests";
       dest := "max_num_completed_requests";
       is_int := true; default := Some (VInt 10) |};
    {| flag := "--additional-sampling-params";
       dest := "additional_sampling_params";
       is_int := false; default := Some (VStr "{}") |};
    {| flag := "--results-dir"; dest := "results_dir";
       is_int := false; default := Some (VStr "") |};
    {| flag := "--llm-api"; dest := "llm_api";
       is_int := false; default := Some (VStr "openai") |};
    {| flag := "--metadata"; dest := "metadata";
       is_int := false; default := Some (VStr "") |} ].

(** The namespace [parse_args] fills: attribute name to value. *)
Abbreviation namespace := (gmap string value).

Definition defaults : namespace :=
  list_to_map
    (omap (fun a => match default a with
                    | Some v => Some (dest a, v)
                    | None => None
                    end) arguments).

Definition starts_with_dash (s : string) : bool :=
  match s with
  | String c _ => Ascii.eqb c "-"
  | EmptyString => false
  end.

(** [args.parse_args()] on the command lines made of [--option value]
    pairs in which every option is one the script declares, spelled in
    full, and no value begins with a dash.  [py_int] is the builtin
    [int] on strings.  On these argparse stores each value under its
    attribute, later ones over earlier ones, and ends the process
    ([SystemExit]) on a value [int] refuses or when [--model] was not
    given.  Every other command line (abbreviated options,
    [--option=value], [-h], values that begin with a dash, stray words)
    is outside this fragment: [None]. *)
Fixpoint parse_pairs (py_int : string -> option Z) (argv : list string)
    (ns : namespace) : option (result namespace) :=
  match argv with
  | [] => Some (Ok ns)
  | [_] => None
  | f :: v :: rest =>
      match List.find (fun a => String.eqb (flag a) f) arguments with
      | None => None
      | Some a =>
          if starts_with_dash v then None
          else if is_int a then
            match py_int v with
            | Some z => parse_pairs py_int rest (<[dest a := VInt z]> ns)
            | None => Some (Raise SystemExit)
            end
          else parse_pairs py_int rest (<[dest a := VStr v]> ns)
      end
  end.

Definition parse_args (py_int : string -> option Z) (argv : list string)
  : option (result namespace) :=
  match parse_pairs py_int argv defaults with
  | Some (Ok ns) =>
      if List.forallb (fun a => bool_decide (is_Some (ns !! dest a)))
           arguments
      then Some (Ok ns) else Some (Raise SystemExit)
  | other => other
  end.

(** What argparse guarantees of a namespace it returns: every declared
    argument has its attribute. *)
Definition namespace_complete (ns : namespace) : Prop :=
  forall a, a ∈ arguments -> is_Some (ns !! dest a).

(** [args.<name>] *)
Definition getattr (ns : namespace) (name : string) : result value :=
  match ns !! name with
  | Some v => Ok v
  | None => Raise AttributeError
  end.

(** [s.split(sep)] for a separator of one character. *)
Fixpoint split (sep : ascii) (s : string) : list string :=
  match s with
  | EmptyString => [EmptyString]
  | String c s' =>
      if Ascii.eqb c sep then EmptyString :: split sep s'
      else match split sep s' with
           | [] => [String c EmptyString]
           | w :: ws => String c w :: ws
           end
  end.

(** Lines 468-472. *)
Fixpoint parse_items (items : list string) (user_metadata : gmap string string)
  : result (gmap string string) :=
  match items with
  | [] => Ok user_metadata
  | item :: items' =>
      match split "=" item with
      | [key; val] => parse_items items' (<[key := val]> user_metadata)
      | _ => Raise ValueError
      end
  end.

Definition parse_metadata (md : value) : result (gmap string string) :=
  match md with
  | VStr s => if truthy md then parse_items (split "," s) ∅ else Ok ∅
  | _ => Raise AttributeError
  end.

(** A function signature: parameter names, each with whether it has a
    default.  No parameter of [run_token_benchmark] is positional-only
    and there is no [**kwargs]. *)
Definition run_token_benchmark_params : list (string * bool) :=
  [ ("llm_api", false); ("model", false); ("test_timeout_s", false);
    ("max_num_completed_requests", false);
    ("num_concurrent_requests", false);
    ("mean_output_tokens", false); ("stddev_output_tokens", false);
    ("additional_sampling_params", true); ("user_metadata", true);
    ("custom_prompt", true); ("model_url", true); ("api_key", true);
    ("header_params", true); ("verify_ssl", true) ]%string.

(** The keywords of the call at lines 474-487, each with the attribute
    of [args] its value is read from ([None] for the local
    [user_metadata]). *)
Definition main_call : list (string * option string) :=
  [ ("llm_api", Some "llm_api"); ("model", Some "model");
    ("test_timeout_s", Some "timeout");
    ("max_num_completed_requests", Some "max_num_completed_requests");
    ("mean_input_tokens", Some "mean_input_tokens");
    ("stddev_input_tokens", Some "stddev_input_tokens");
    ("mean_output_tokens", Some "mean_output_tokens");
    ("stddev_output_tokens", Some "stddev_output_tokens");
    ("num_concurrent_requests", Some "num_concurrent_requests");
    ("additional_sampling_params", Some "additional_sampling_params");
    ("results_dir", Some "results_dir");
    ("user_metadata", None) ]%string.

Definition has_name (name : string) (names : list string) : bool :=
  List.existsb (String.eqb name) names.

(** Binding a call made of keyword arguments only: a keyword the
    signature does not declare is a [TypeError], and so is a parameter
    without default that no keyword supplies. *)
Definition bind_keywords (sig : list (string * bool)) (keywords : list string)
  : result unit :=
  if List.forallb (fun k => has_name k (fst <$> sig)) keywords then
    if List.forallb
         (fun p : string * bool => snd p || has_name (fst p) keywords) sig
    then Ok tt else Raise TypeError
  else Raise TypeError.

(** The argument expressions are evaluated, left to right, before the
    call is bound. *)
Fixpoint eval_arguments (ns : namespace)
    (call : list (string * option string)) : result unit :=
  match call with
  | [] => Ok tt
  | (_, Some attr) :: call' => _ ← getattr ns attr; eval_arguments ns call'
  | (_, None) :: call' => eval_arguments ns call'
  end.

(** The [__main__] block.  [ray_init] is the outcome of [ray.init] and
    [parsed] the outcome of [args.parse_args()] on the command line of
    the process; [body] is the body of [run_token_benchmark], entered
    only when the call binds. *)
Definition main {A} (ray_init : result unit) (parsed : result namespace)
    (body : namespace -> gmap string string -> result A) : result A :=
  _ ← ray_init;
  args ← parsed;
  md ← getattr args "metadata";
  user_metadata ← parse_metadata md;
  _ ← eval_arguments args main_call;
  _ ← bind_keywords run_token_benchmark_params (fst <$> main_call);
  body args user_metadata.

End script.

(** ** Reading a trace *)

Definition launched_at (tr : list event) : list Z :=
  omap (fun ev => match ev with Launched i _ => Some i | _ => None end) tr.

Definition drained_at (tr : list event) : list Z :=
  omap (fun ev => match ev with Drained i => Some i | _ => None end) tr.

Definition final_drains (tr : list event) : nat :=
  length (List.filter
            (fun ev => match ev with FinalDrained => true | _ => false end)
            tr).

(** The iteration indices [1, ..., n]. *)
Definition iterations_upto (n : Z) : list Z :=
  Z.of_nat <$> seq 1 (Z.to_nat n).

(** [not (iter % num_concurrent_requests)] *)
Definition is_multiple (c i : Z) : bool := i mod c =? 0.

(** One turn of the [while] loop that ends without a raise. *)
Inductive loop_step (E : env) (P : params) (start_time : Q)
  : sched -> sched -> Prop :=
  | loop_step_intro (st st1 st2 : sched) :
      loop_test E P start_time st = (true, st1) ->
      loop_body E P st1 = Ok st2 ->
      loop_step E P start_time st st2.

(** What holds of the trace between two iterations: every iteration so
    far launched once, the drains are those of the multiples of the
    concurrency, no drain of the other kind, and the launcher was asked
    as often as there are drains. *)
Definition trace_inv (c : Z) (st : sched) : Prop :=
  0 <= iter st
  /\ launched_at (trace st) = iterations_upto (iter st)
  /\ drained_at (trace st)
     = List.filter (is_multiple c) (iterations_upto (iter st))
  /\ final_drains (trace st) = 0%nat
  /\ drain_calls st = length (drained_at (trace st)).

(** ** Well formed records *)

Definition number_or_none (o : option value) : bool :=
  match o with
  | Some VNone | Some (VInt _) | Some (VFloat _) => true
  | _ => false
  end.

(** A normalised record as the aggregator expects it: every tracked
    field is there and holds a number or [None], the output token count
    is a non negative integer that fits 64 signed bits, and the error
    code is there and is no list. *)
Definition complete_record (r : metrics) : bool :=
  List.forallb (fun key => number_or_none (r !! key)) tracked_keys
  && match r !! NUM_OUTPUT_TOKENS with
     | Some (VInt n) => (0 <=? n) && (n <? int64_bound)
     | _ => false
     end
  && match r !! ERROR_CODE with
     | Some (VList _) | None => false
     | Some _ => true
     end.

Definition number_or_missing (o : option value) : bool :=
  match o with
  | None => true
  | Some _ => number_or_none o
  end.

(** A record the aggregator can read: a tracked field, where the record
    has it, holds a number or [None]; the output token count is there
    and is a non negative integer that fits 64 signed bits; the error
    code, where the record has one, is no list.  A record the drain
    inside the loop accumulated for a latency of zero is of this kind:
    it has no throughput entry. *)
Definition readable_record (r : metrics) : bool :=
  List.forallb (fun key => number_or_missing (r !! key)) tracked_keys
  && match r !! NUM_OUTPUT_TOKENS with
     | Some (VInt n) => (0 <=? n) && (n <? int64_bound)
     | _ => false
     end
  && match r !! ERROR_CODE with
     | Some (VList _) => false
     | _ => true
     end.

(** A list the aggregator can summarise: its records are readable and
    each of the columns the aggregator reads occurs in some record. *)
Definition summarizable (ms : list metrics) : bool :=
  List.forallb readable_record ms
  && List.forallb
       (fun key =>
          List.existsb (fun m : metrics => bool_decide (is_Some (m !! key)))
            ms)
       (ERROR_CODE :: tracked_keys).

(** The rows the aggregator keeps: those without an error code. *)
Definition non_errored (ms : list metrics) : list metrics :=
  List.filter (fun r : metrics => isna (r !! ERROR_CODE)) ms.

(** The sum of the output token counts of a list of records. *)
Fixpoint output_tokens (ms : list metrics) : Z :=
  match ms with
  | [] => 0
  | r :: ms' =>
      match r !! NUM_OUTPUT_TOKENS with
      | Some (VInt n) => n + output_tokens ms'
      | _ => output_tokens ms'
      end
  end.

(** ** Auxiliary notions of the further properties *)

Definition is_list (v : value) : bool :=
  match v with VList _ => true | _ => false end.

Definition holds_list (o : option value) : bool :=
  match o with Some v => is_list v | None => false end.

(** How often a character occurs in a string. *)
Fixpoint count_char (c : ascii) (s : string) : nat :=
  match s with
  | EmptyString => 0
  | String c' s' =>
      if Ascii.eqb c' c then S (count_char c s') else count_char c s'
  end.

(** A record as a drain leaves it when no statement raised: the output
    token count is a non negative integer and the entries the
    statements read or write are there. *)
Definition normalized (m : metrics) : Prop :=
  (exists n, 0 <= n /\ m !! NUM_OUTPUT_TOKENS = Some (VInt n))
  /\ is_Some (m !! INTER_TOKEN_LAT)
  /\ is_Some (m !! NUM_INPUT_TOKENS)
  /\ is_Some (m !! NUM_TOTAL_TOKENS)
  /\ is_Some (m !! E2E_LAT).

(** ** Concrete inputs *)

(** The collaborators used to run the model on concrete inputs: one
    token per character, a clock that advances one second per reading,
    a launcher with nothing ready and a sampler that always says 1. *)
Definition idle_env : env :=
  {| get_token_length := String.length;
     generate_maximum_text_prompt := ("prompt"%string, 1);
     monotonic := fun k => inject_Z (Z.of_nat k);
     get_next_ready := fun _ => [];
     sample_random_positive_int := fun _ _ _ => 1 |}.

Definition plain_config : RequestConfig :=
  {| models.model := "m";
     models.prompt := ("prompt"%string, 1);
     models.sampling_params := None;
     models.llm_api := None;
     models.metadata := None;
     models.header_params := None;
     models.verify_ssl := Some true |}.

(** A raw record as a client returns it: accumulator 3 s, latency 2 s,
    five input tokens, no error. *)
Definition raw_record : metrics :=
  <[INTER_TOKEN_LAT := VFloat 3]>
    (<[TTFT := VFloat (1 # 2)]>
       (<[E2E_LAT := VFloat 2]>
          (<[NUM_INPUT_TOKENS := VInt 5]>
             (<[ERROR_CODE := VNone]> (<[ERROR_MSG := VStr ""]> ∅))))).

(** The same record with a latency of exactly zero. *)
Definition zero_latency_record : metrics :=
  <[E2E_LAT := VFloat 0]> raw_record.


(** A launcher that has one finished request ready at every call. *)
Definition busy_env : env :=
  {| get_token_length := String.length;
     generate_maximum_text_prompt := ("prompt"%string, 1);
     monotonic := fun k => inject_Z (Z.of_nat k);
     get_next_ready := fun _ => [(raw_record, "ab"%string, plain_config)];
     sample_random_positive_int := fun _ _ _ => 1 |}.

(** A launcher whose first answer is an ordinary finished request and
    whose later answers are a finished request with a latency of zero. *)
Definition late_zero_env : env :=
  {| get_token_length := String.length;
     generate_maximum_text_prompt := ("prompt"%string, 1);
     monotonic := fun k => inject_Z (Z.of_nat k);
     get_next_ready := fun k =>
       match k with
       | O => [(raw_record, "ab"%string, plain_config)]
       | S _ => [(zero_latency_record, "ab"%string, plain_config)]
       end;
     sample_random_positive_int := fun _ _ _ => 1 |}.

Definition benchmark_params (concurrency max_completed : Z) (timeout : Q)
  : params :=
  {| model := "m";
     mean_output_tokens := 150;
     stddev_output_tokens := 80;
     additional_sampling_params := None;
     num_concurrent_requests := concurrency;
     max_num_completed_requests := max_completed;
     test_timeout_s := timeout;
     llm_api := "openai";
     custom_prompt := None;
     header_params := None;
     verify_ssl := Some true |}.

(** The raw record after the drain inside the loop, for a text of two
    tokens; and the same request reported as failed. *)
Definition normalized_record : metrics := (normalize_in_loop 2 raw_record).2.

Definition errored_record : metrics :=
  <[ERROR_CODE := VInt 500]> normalized_record.

(** The record with a latency of zero after the drain inside the loop:
    it has no throughput entry. *)
Definition unset_throughput_record : metrics :=
  (normalize_in_loop 2 zero_latency_record).2.

(** A successful request that reports [2^62] output tokens. *)
Definition huge_record : metrics :=
  <[NUM_OUTPUT_TOKENS := VInt 4611686018427387904]> normalized_record.

(** A command line that argparse accepts. *)
Definition sample_argv : list string :=
  ["--model"; "m"; "--metadata"; "name=foo,bar=1"]%string.

(** The namespace argparse makes of it. *)
Definition sample_namespace : script.namespace :=
  <["metadata" := VStr "name=foo,bar=1"]>
    (<["model" := VStr "m"]> script.defaults)%string.

(** The dictionary the script makes of its metadata string. *)
Definition sample_user_metadata : gmap string string :=
  <["bar" := "1"]> (<["name" := "foo"]> ∅)%string.

Definition from_result {A} (d : A) (r : result A) : A :=
  match r with
  | Ok a => a
  | Raise _ => d
  end.

(** * Properties *)

(** ** The normaliser *)

Ltac unfold_stmt :=
  unfold normalize_in_loop, normalize_final, normalize_tokens,
    set_throughput, idiv_item, getitem, setitem, lift;
  unfold mbind, stmt_mbind, mret, stmt_ret.

Ltac step_stmt :=
  repeat (simplify_map_eq; simpl in *; try done;
          match goal with
          | |- context [match ?m !! ?k with _ => _ end] =>
              destruct (m !! k) eqn:?
          | |- context [match py_add ?a ?b with _ => _ end] =>
              destruct (py_add a b) eqn:?
          | |- context [match py_truediv ?a ?b with _ => _ end] =>
              destruct (py_truediv a b) eqn:?
          | |- context [if truthy ?v then _ else _] =>
              destruct (truthy v) eqn:?
          | |- context [if negb ?b then _ else _] =>
              destruct b eqn:?
          end).

Lemma truthy_int (z : Z) : truthy (VInt z) = negb (z =? 0).
Proof. reflexivity. Qed.

Lemma Qeq_bool_inject_Z_0 (z : Z) : Qeq_bool (inject_Z z) 0 = (z =? 0).
Proof. unfold Qeq_bool. simpl. f_equal. lia. Qed.

Lemma truthy_number (v : value) (q : Q) :
  as_number v = Some q -> truthy v = negb (Qeq_bool q 0).
Proof.
  destruct v; simpl; intros H; inversion H; subst; try reflexivity.
  now rewrite Qeq_bool_inject_Z_0.
Qed.

(** A zero token count writes the integer 0, whatever was stored. *)
Lemma normalize_tokens_zero (m : metrics) :
  (normalize_tokens 0 m).2 !! INTER_TOKEN_LAT = Some (VInt 0).
Proof. unfold_stmt. step_stmt. Qed.

Lemma normalize_in_loop_zero (m : metrics) :
  (normalize_in_loop 0 m).2 !! INTER_TOKEN_LAT = Some (VInt 0).
Proof. unfold_stmt. step_stmt. Qed.

Lemma normalize_final_zero (m : metrics) :
  (normalize_final 0 m).2 !! INTER_TOKEN_LAT = Some (VInt 0).
Proof. unfold_stmt. step_stmt. Qed.

Lemma py_truediv_number (v : value) (acc : Q) (n : Z) :
  as_number v = Some acc -> n <> 0 ->
  py_truediv v (VInt n) = Ok (VFloat (acc / inject_Z n)%Q).
Proof.
  intros Hv Hn. unfold py_truediv. rewrite Hv.
  cbn [as_number]. rewrite Qeq_bool_inject_Z_0.
  destruct (n =? 0) eqn:E; [|reflexivity].
  apply Z.eqb_eq in E. contradiction.
Qed.

Lemma normalize_in_loop_positive (m : metrics) (n : Z) (v : value) (acc : Q) :
  n <> 0 -> m !! INTER_TOKEN_LAT = Some v -> as_number v = Some acc ->
  (normalize_in_loop n m).2 !! INTER_TOKEN_LAT
  = Some (VFloat (acc / inject_Z n)%Q).
Proof.
  intros Hn Hm Hv. unfold_stmt. rewrite truthy_int.
  destruct (n =? 0) eqn:E; [apply Z.eqb_eq in E; contradiction|]. simpl.
  rewrite Hm, (py_truediv_number v acc n Hv Hn). step_stmt.
Qed.

Lemma normalize_final_positive (m : metrics) (n : Z) (v : value) (acc : Q) :
  n <> 0 -> m !! INTER_TOKEN_LAT = Some v -> as_number v = Some acc ->
  (normalize_final n m).2 !! INTER_TOKEN_LAT
  = Some (VFloat (acc / inject_Z n)%Q).
Proof.
  intros Hn Hm Hv. unfold_stmt. rewrite truthy_int.
  destruct (n =? 0) eqn:E; [apply Z.eqb_eq in E; contradiction|]. simpl.
  rewrite Hm, (py_truediv_number v acc n Hv Hn). step_stmt.
Qed.

(** The statements shared by the two drains write three keys only. *)
Lemma normalize_tokens_frame (n : Z) (m : metrics) (k : metric_key) :
  k <> INTER_TOKEN_LAT -> k <> NUM_OUTPUT_TOKENS -> k <> NUM_TOTAL_TOKENS ->
  (normalize_tokens n m).2 !! k = m !! k.
Proof. intros H1 H2 H3. unfold_stmt. step_stmt. Qed.

Lemma py_add_number (a : value) (x : Q) (n : Z) :
  as_number a = Some x -> exists t, py_add a (VInt n) = Ok t.
Proof. destruct a; simpl; intros H; inversion H; eauto. Qed.

(** On a well formed raw record the shared statements do not raise. *)
Lemma normalize_tokens_ok (n : Z) (m : metrics) (v a : value) (acc x : Q) :
  m !! INTER_TOKEN_LAT = Some v -> as_number v = Some acc ->
  m !! NUM_INPUT_TOKENS = Some a -> as_number a = Some x ->
  (normalize_tokens n m).1 = Ok tt.
Proof.
  intros Hm Hv Ha Hx. unfold_stmt. rewrite truthy_int.
  destruct (py_add_number a x n Hx) as [t Ht].
  destruct (n =? 0) eqn:E; simpl.
  - simplify_map_eq. rewrite Ht. reflexivity.
  - apply Z.eqb_neq in E. rewrite Hm, (py_truediv_number v acc n Hv E).
    simplify_map_eq. rewrite Ht. reflexivity.
Qed.

(** Where the latency is truthy the guard is passed and both drains run
    the same statements. *)
Lemma normalize_final_agrees (n : Z) (m : metrics) (e : value) :
  m !! E2E_LAT = Some e -> truthy e = true ->
  normalize_final n m = normalize_in_loop n m.
Proof.
  intros He Ht. unfold normalize_final, normalize_in_loop.
  unfold mbind, stmt_mbind.
  pose proof (normalize_tokens_frame n m E2E_LAT) as Hf.
  destruct (normalize_tokens n m) as [[[]|err] m1]; [|reflexivity].
  simpl in Hf. unfold getitem at 1.
  rewrite Hf, He by discriminate. rewrite Ht. reflexivity.
Qed.

Lemma normalize_out_record (E : env) (norm : Z -> stmt unit) (o : out)
    (m' : metrics) :
  normalize_out E norm o = Ok m' -> m' = (run_normalizer E norm o).2.
Proof.
  unfold normalize_out. destruct (run_normalizer E norm o) as [[u|e] m1];
    intros H; inversion H; reflexivity.
Qed.

(** A latency that is a number equal to zero: the guarded drain leaves
    the throughput alone, the unguarded one divides. *)
Lemma normalize_in_loop_zero_latency (n : Z) (m : metrics)
    (v a e : value) (acc x q : Q) :
  m !! INTER_TOKEN_LAT = Some v -> as_number v = Some acc ->
  m !! NUM_INPUT_TOKENS = Some a -> as_number a = Some x ->
  m !! E2E_LAT = Some e -> as_number e = Some q -> Qeq_bool q 0 = true ->
  exists m', normalize_in_loop n m = (Ok tt, m')
             /\ m' !! REQ_OUTPUT_THROUGHPUT = m !! REQ_OUTPUT_THROUGHPUT.
Proof.
  intros Hm Hv Ha Hx He Hq Hz.
  pose proof (normalize_tokens_ok n m v a acc x Hm Hv Ha Hx) as Hok.
  pose proof (normalize_tokens_frame n m E2E_LAT) as Hf.
  pose proof (normalize_tokens_frame n m REQ_OUTPUT_THROUGHPUT) as Hr.
  unfold normalize_in_loop, mbind, stmt_mbind.
  destruct (normalize_tokens n m) as [r m1]. simpl in *. subst r.
  unfold getitem. rewrite Hf, He by discriminate.
  rewrite (truthy_number e q Hq), Hz. simpl.
  exists m1. split; [reflexivity|]. apply Hr; discriminate.
Qed.

Lemma normalize_final_zero_latency (n : Z) (m : metrics)
    (v a e : value) (acc x q : Q) :
  m !! INTER_TOKEN_LAT = Some v -> as_number v = Some acc ->
  m !! NUM_INPUT_TOKENS = Some a -> as_number a = Some x ->
  m !! E2E_LAT = Some e -> as_number e = Some q -> Qeq_bool q 0 = true ->
  (normalize_final n m).1 = Raise ZeroDivisionError.
Proof.
  intros Hm Hv Ha Hx He Hq Hz.
  pose proof (normalize_tokens_ok n m v a acc x Hm Hv Ha Hx) as Hok.
  pose proof (normalize_tokens_frame n m E2E_LAT) as Hf.
  unfold normalize_final, mbind, stmt_mbind.
  destruct (normalize_tokens n m) as [r m1]. simpl in *. subst r.
  unfold set_throughput, mbind, stmt_mbind, getitem, lift.
  rewrite Hf, He by discriminate.
  unfold py_truediv. rewrite Hq. cbn [as_number]. rewrite Hz. reflexivity.
Qed.

(** C4.  Inter-token latency after normalisation.  For a drained record
    whose text has zero output tokens both drains store the integer 0
    under the inter-token-latency key; for a positive count both store
    the raw accumulator divided by the count.  This is the dictionary as
    the drain leaves it, hence also the record that is accumulated. *)
Theorem inter_token_latency_normalized (E : env) (m : metrics)
    (text : string) (cfg : RequestConfig) :
  let n := get_token_length E text in
  let o : out := (m, text, cfg) in
  (n = 0%nat ->
     (run_normalizer E normalize_in_loop o).2 !! INTER_TOKEN_LAT
       = Some (VInt 0)
     /\ (run_normalizer E normalize_final o).2 !! INTER_TOKEN_LAT
       = Some (VInt 0))
  /\ (forall (v : value) (acc : Q),
        (0 < n)%nat ->
        m !! INTER_TOKEN_LAT = Some v -> as_number v = Some acc ->
        (run_normalizer E normalize_in_loop o).2 !! INTER_TOKEN_LAT
          = Some (VFloat (acc / inject_Z (Z.of_nat n))%Q)
        /\ (run_normalizer E normalize_final o).2 !! INTER_TOKEN_LAT
          = Some (VFloat (acc / inject_Z (Z.of_nat n))%Q))
  /\ (forall (norm : Z -> stmt unit) (m' : metrics),
        normalize_out E norm o = Ok m' ->
        m' = (run_normalizer E norm o).2).
Proof.
  intros n o. unfold o, run_normalizer. fold n. split; [|split].
  - intros ->. split.
    + apply normalize_in_loop_zero.
    + apply normalize_final_zero.
  - intros v acc Hn Hm Hv. split.
    + apply (normalize_in_loop_positive m _ v acc); [lia|done|done].
    + apply (normalize_final_positive m _ v acc); [lia|done|done].
  - intros norm m'. apply normalize_out_record.
Qed.

Lemma inter_token_latency_normalized_witness :
  (run_normalizer idle_env normalize_in_loop
     (raw_record, "abc"%string, plain_config)).2 !! INTER_TOKEN_LAT
    = Some (VFloat (3 / inject_Z (Z.of_nat 3))%Q)
  /\ (run_normalizer idle_env normalize_final
     (raw_record, "abc"%string, plain_config)).2 !! INTER_TOKEN_LAT
    = Some (VFloat (3 / inject_Z (Z.of_nat 3))%Q).
Proof.
  apply (proj1 (proj2 (inter_token_latency_normalized idle_env raw_record
                         "abc"%string plain_config)) (VFloat 3) 3%Q).
  - simpl. lia.
  - reflexivity.
  - reflexivity.
Defined.

(** C1.  The drain after the loop does not normalise as the drain inside
    the loop does.  On a record whose end-to-end latency is a number
    equal to zero the drain inside the loop accumulates the record with
    its throughput entry untouched, while the drain after the loop
    raises [ZeroDivisionError]: lines 171-173 divide without the test of
    line 143. *)
Theorem final_drain_divides_by_zero_latency (E : env) (m : metrics)
    (text : string) (cfg : RequestConfig) (outs : list out)
    (v a e : value) (acc x q : Q) :
  m !! INTER_TOKEN_LAT = Some v -> as_number v = Some acc ->
  m !! NUM_INPUT_TOKENS = Some a -> as_number a = Some x ->
  m !! E2E_LAT = Some e -> as_number e = Some q -> Qeq_bool q 0 = true ->
  (exists m', drain_in_loop E [(m, text, cfg)] = Ok [m']
              /\ m' !! REQ_OUTPUT_THROUGHPUT = m !! REQ_OUTPUT_THROUGHPUT)
  /\ drain_final E ((m, text, cfg) :: outs) = Raise ZeroDivisionError.
Proof.
  intros Hm Hv Ha Hx He Hq Hz. split.
  - destruct (normalize_in_loop_zero_latency
                (Z.of_nat (get_token_length E text)) m v a e acc x q
                Hm Hv Ha Hx He Hq Hz) as (m' & Hrun & Hthr).
    exists m'. split; [|exact Hthr].
    unfold drain_in_loop, drain, normalize_out, run_normalizer.
    rewrite Hrun. reflexivity.
  - pose proof (normalize_final_zero_latency
                  (Z.of_nat (get_token_length E text)) m v a e acc x q
                  Hm Hv Ha Hx He Hq Hz) as Hrun.
    unfold drain_final. cbn [drain].
    unfold normalize_out, run_normalizer.
    destruct (normalize_final _ m) as [r m1]. simpl in Hrun. subst r.
    reflexivity.
Qed.

Lemma final_drain_divides_by_zero_latency_witness :
  (exists m', drain_in_loop idle_env
                [(zero_latency_record, "ab"%string, plain_config)] = Ok [m']
              /\ m' !! REQ_OUTPUT_THROUGHPUT
                 = zero_latency_record !! REQ_OUTPUT_THROUGHPUT)
  /\ drain_final idle_env
       [(zero_latency_record, "ab"%string, plain_config)]
     = Raise ZeroDivisionError.
Proof.
  apply (final_drain_divides_by_zero_latency idle_env zero_latency_record
           "ab"%string plain_config [] (VFloat 3) (VInt 5) (VFloat 0)
           3%Q (inject_Z 5) 0%Q);
    reflexivity.
Defined.

(** ** The scheduler loop *)

Lemma py_pop_Ok {A} (l l' : list A) (x : A) :
  py_pop l = Ok (x, l') -> l = l' ++ [x].
Proof.
  unfold py_pop. destruct (reverse l) as [|y r] eqn:Hr; [discriminate|].
  intros H. inversion H; subst.
  rewrite <- (reverse_involutive l), Hr, reverse_cons. reflexivity.
Qed.

Lemma py_pop_nil {A} : py_pop (@nil A) = Raise IndexError.
Proof. reflexivity. Qed.

Lemma py_pop_length {A} (l l' : list A) (x : A) :
  py_pop l = Ok (x, l') -> length l = S (length l').
Proof.
  intros H. rewrite (py_pop_Ok _ _ _ H), length_app. simpl. lia.
Qed.

Section Scheduler.
Context (E : env) (P : params) (start_time : Q).

Let c := num_concurrent_requests P.

Lemma loop_test_state (st st1 : sched) (b : bool) :
  loop_test E P start_time st = (b, st1) ->
  iter st1 = iter st
  /\ num_output_tokens_list st1 = num_output_tokens_list st
  /\ prompts st1 = prompts st
  /\ completed_requests st1 = completed_requests st
  /\ drain_calls st1 = drain_calls st
  /\ trace st1 = trace st.
Proof. unfold loop_test. intros H. inversion H; subst. simpl. tauto. Qed.

(** What one iteration that does not raise has done. *)
Lemma loop_body_Ok (st st' : sched) :
  loop_body E P st = Ok st' ->
  iter st' = iter st + 1
  /\ length (num_output_tokens_list st)
     = S (length (num_output_tokens_list st'))
  /\ length (prompts st) = S (length (prompts st'))
  /\ c <> 0
  /\ exists cfg,
      if is_multiple c (iter st + 1) then
        exists all_metrics,
          drain_in_loop E (get_next_ready E (drain_calls st))
            = Ok all_metrics
          /\ trace st'
             = trace st ++ [Launched (iter st + 1) cfg;
                            Drained (iter st + 1)]
          /\ completed_requests st'
             = completed_requests st ++ all_metrics
          /\ drain_calls st' = S (drain_calls st)
      else
        trace st' = trace st ++ [Launched (iter st + 1) cfg]
        /\ completed_requests st' = completed_requests st
        /\ drain_calls st' = drain_calls st.
Proof.
  unfold loop_body, mbind, result_mbind, result_bind.
  destruct (py_pop (num_output_tokens_list st)) as [[n tokens']|]
    eqn:Htok; [|discriminate].
  destruct (py_pop (prompts st)) as [[pr prompts']|] eqn:Hpr;
    [|discriminate].
  unfold drain_step, is_multiple. fold c. cbn [iter drain_calls].
  destruct (c =? 0) eqn:Hc; [discriminate|].
  apply Z.eqb_neq in Hc.
  destruct ((iter st + 1) mod c =? 0) eqn:Hmod.
  - unfold call_get_next_ready. cbn.
    destruct (drain_in_loop E (get_next_ready E (drain_calls st)))
      as [ms|] eqn:Hd; [|discriminate].
    intros H. inversion H; subst; clear H. cbn.
    repeat split; eauto using py_pop_length.
    eexists. exists ms. rewrite <- app_assoc. cbn. eauto.
  - intros H. inversion H; subst; clear H. cbn.
    repeat split; eauto using py_pop_length.
Qed.

(** The loop rule: a property kept by the test and by an iteration
    holds of the state the loop exits with. *)
Lemma scheduler_loop_invariant (I : sched -> Prop) :
  (forall st st1 b, I st -> loop_test E P start_time st = (b, st1) -> I st1) ->
  (forall st st', I st -> loop_body E P st = Ok st' -> I st') ->
  forall fuel st st',
    I st -> scheduler_loop E P start_time fuel st = Some (Ok st') -> I st'.
Proof.
  intros Htest Hbody. induction fuel as [|fuel IH]; intros st st' HI.
  - discriminate.
  - cbn [scheduler_loop].
    destruct (loop_test E P start_time st) as [b st1] eqn:Ht.
    specialize (Htest _ _ _ HI Ht). destruct b.
    + destruct (loop_body E P st1) as [st2|e] eqn:Hb; [|discriminate].
      intros H. apply (IH st2 st' (Hbody st1 st2 Htest Hb) H).
    + intros H. inversion H; subst. exact Htest.
Qed.

(** Enough fuel: the loop ends, by exit or by raise. *)
Lemma scheduler_loop_terminates (fuel : nat) (st : sched) :
  (length (num_output_tokens_list st) < fuel)%nat ->
  exists r, scheduler_loop E P start_time fuel st = Some r.
Proof.
  revert st. induction fuel as [|fuel IH]; intros st Hlen; [lia|].
  cbn [scheduler_loop].
  destruct (loop_test E P start_time st) as [b st1] eqn:Ht.
  destruct (loop_test_state _ _ _ Ht) as (_ & Htok & _).
  destruct b; [|eauto].
  destruct (loop_body E P st1) as [st2|e] eqn:Hb; [|eauto].
  apply IH. destruct (loop_body_Ok _ _ Hb) as (_ & Hl & _).
  rewrite Htok in Hl. lia.
Qed.

Lemma loop_step_unfold (fuel : nat) (st st2 : sched) :
  loop_step E P start_time st st2 ->
  scheduler_loop E P start_time (S fuel) st
  = scheduler_loop E P start_time fuel st2.
Proof.
  intros [st0 st1 st2' Ht Hb]. cbn [scheduler_loop]. rewrite Ht, Hb.
  reflexivity.
Qed.

Lemma nsteps_unfold (k fuel : nat) (st st' : sched) :
  nsteps (loop_step E P start_time) k st st' ->
  scheduler_loop E P start_time (k + fuel) st
  = scheduler_loop E P start_time fuel st'.
Proof.
  induction 1 as [|k st st1 st' Hstep _ IH]; [reflexivity|].
  cbn [Nat.add]. rewrite (loop_step_unfold _ _ _ Hstep). exact IH.
Qed.

(** Each turn takes one entry from each pool and counts one iteration. *)
Lemma nsteps_pools (k : nat) (st st' : sched) :
  nsteps (loop_step E P start_time) k st st' ->
  iter st' = iter st + Z.of_nat k
  /\ length (num_output_tokens_list st)
     = (k + length (num_output_tokens_list st'))%nat
  /\ length (prompts st) = (k + length (prompts st'))%nat.
Proof.
  induction 1 as [|k st st1 st' Hstep _ IH].
  - split; [lia|]. split; reflexivity.
  - destruct Hstep as [st0 st1 st2 Ht Hb].
    destruct (loop_test_state _ _ _ Ht) as (Hi & Htok & Hpr & _).
    destruct (loop_body_Ok _ _ Hb) as (Hi' & Hl & Hl' & _).
    destruct IH as (IHi & IHt & IHp).
    rewrite Htok in Hl. rewrite Hpr in Hl'. rewrite Hi in Hi'.
    split; [lia|]. split; lia.
Qed.

End Scheduler.

Lemma launched_at_app (t1 t2 : list event) :
  launched_at (t1 ++ t2) = launched_at t1 ++ launched_at t2.
Proof. apply omap_app. Qed.

Lemma drained_at_app (t1 t2 : list event) :
  drained_at (t1 ++ t2) = drained_at t1 ++ drained_at t2.
Proof. apply omap_app. Qed.

Lemma final_drains_app (t1 t2 : list event) :
  final_drains (t1 ++ t2) = (final_drains t1 + final_drains t2)%nat.
Proof. unfold final_drains. rewrite List.filter_app, length_app. lia. Qed.

Lemma iterations_upto_succ (n : Z) :
  0 <= n -> iterations_upto (n + 1) = iterations_upto n ++ [n + 1].
Proof.
  intros Hn. unfold iterations_upto.
  replace (Z.to_nat (n + 1)) with (S (Z.to_nat n)) by lia.
  rewrite seq_S, fmap_app. simpl. do 2 f_equal. lia.
Qed.

Lemma elem_of_iterations_upto (n i : Z) :
  i ∈ iterations_upto n <-> 1 <= i <= n.
Proof.
  unfold iterations_upto. rewrite list_elem_of_fmap. split.
  - intros (k & -> & Hk). apply elem_of_seq in Hk. lia.
  - intros Hi. exists (Z.to_nat i). split; [lia|].
    apply elem_of_seq. lia.
Qed.

Section TraceInvariant.
Context (E : env) (P : params) (start_time : Q).

Let c := num_concurrent_requests P.

Lemma trace_inv_initial : trace_inv c (initial E P).
Proof. unfold trace_inv. cbn. repeat split; reflexivity || lia. Qed.

Lemma trace_inv_test (st st1 : sched) (b : bool) :
  trace_inv c st -> loop_test E P start_time st = (b, st1) ->
  trace_inv c st1.
Proof.
  intros HI Ht.
  destruct (loop_test_state _ _ _ _ _ _ Ht) as (Hi & _ & _ & _ & Hd & Htr).
  unfold trace_inv in *. rewrite Hi, Hd, Htr. exact HI.
Qed.

Lemma trace_inv_body (st st' : sched) :
  trace_inv c st -> loop_body E P st = Ok st' -> trace_inv c st'.
Proof.
  intros (Hpos & Hl & Hd & Hf & Hc) Hb.
  destruct (loop_body_Ok _ _ _ _ Hb) as (Hi & _ & _ & _ & cfg & Hcase).
  fold c in Hcase. unfold trace_inv. rewrite Hi.
  rewrite (iterations_upto_succ _ Hpos), List.filter_app. cbn.
  destruct (is_multiple c (iter st + 1)).
  - destruct Hcase as (ms & _ & Htr & _ & Hdc). rewrite Htr, Hdc.
    rewrite launched_at_app, drained_at_app, final_drains_app.
    cbn. rewrite Hc, Hl, Hd, Hf, length_app. cbn.
    repeat split; reflexivity || lia.
  - destruct Hcase as (Htr & _ & Hdc). rewrite Htr, Hdc.
    rewrite launched_at_app, drained_at_app, final_drains_app.
    cbn. rewrite Hc, Hl, Hd, Hf, !app_nil_r.
    repeat split; reflexivity || lia.
Qed.

Lemma trace_inv_exit (fuel : nat) (st : sched) :
  scheduler_loop E P start_time fuel (initial E P) = Some (Ok st) ->
  trace_inv c st.
Proof.
  apply (scheduler_loop_invariant E P start_time (trace_inv c)).
  - intros st0 st1 b. apply trace_inv_test.
  - apply trace_inv_body.
  - apply trace_inv_initial.
Qed.

Lemma trace_inv_nsteps (k : nat) (st st' : sched) :
  nsteps (loop_step E P start_time) k st st' ->
  trace_inv c st -> trace_inv c st'.
Proof.
  induction 1 as [|k st st1 st' Hstep _ IH]; [auto|].
  intros HI. apply IH. destruct Hstep as [st0 st1 st2 Ht Hb].
  eapply trace_inv_body; [|exact Hb]. eapply trace_inv_test; eauto.
Qed.

End TraceInvariant.

Lemma elem_of_drained_multiples (c n i : Z) :
  i ∈ List.filter (is_multiple c) (iterations_upto n)
  <-> 1 <= i <= n /\ i mod c = 0.
Proof.
  rewrite list_elem_of_In, List.filter_In, <- list_elem_of_In.
  rewrite elem_of_iterations_upto. unfold is_multiple.
  rewrite Z.eqb_eq. reflexivity.
Qed.

Lemma initial_pools (E : env) (P : params) :
  length (num_output_tokens_list (initial E P))
  = Z.to_nat (max_num_completed_requests P)
  /\ length (prompts (initial E P))
     = Z.to_nat (max_num_completed_requests P).
Proof.
  cbn. unfold sampled_tokens.
  rewrite length_fmap, length_seq, length_replicate. split; reflexivity.
Qed.

(** The list a drain returns holds one normalised record per result,
    in the order of the results. *)
Lemma drain_Ok_Forall2 (E : env) (norm : Z -> stmt unit) (outs : list out)
    (ms : list metrics) :
  drain E norm outs = Ok ms ->
  Forall2 (fun o m => normalize_out E norm o = Ok m) outs ms.
Proof.
  revert ms. induction outs as [|o outs IH]; intros ms; cbn [drain].
  - intros H. inversion H. constructor.
  - destruct (normalize_out E norm o) as [m|e] eqn:Hm; [|discriminate].
    cbn [mbind result_mbind result_bind].
    destruct (drain E norm outs) as [ms'|e]; [|discriminate].
    intros H. inversion H; subst ms. constructor; [exact Hm|]. now apply IH.
Qed.

(** What the drain after the loop does with the launcher's answer: a
    list of results that all normalise is appended in order, and the
    first result whose normalisation raises ends the run with nothing
    appended. *)
Lemma final_drain_Ok (E : env) (st : sched) (ms : list metrics) :
  Forall2 (fun o m => normalize_out E normalize_final o = Ok m)
    (get_next_ready E (drain_calls st)) ms ->
  exists st',
    final_drain E st = Ok (monotonic E (clock_calls st), st')
    /\ trace st' = trace st ++ [FinalDrained]
    /\ drain_calls st' = S (drain_calls st)
    /\ completed_requests st' = completed_requests st ++ ms.
Proof.
  intros Hall. unfold final_drain, call_get_next_ready.
  cbn [drain_calls clock_calls].
  assert (Hd : drain_final E (get_next_ready E (drain_calls st)) = Ok ms).
  { unfold drain_final. induction Hall as [|o m outs ms' Hm _ IH].
    - reflexivity.
    - cbn [drain]. rewrite Hm, IH. reflexivity. }
  rewrite Hd. cbn [mbind result_mbind result_bind].
  eexists. split; [reflexivity|]. cbn. auto.
Qed.

Lemma final_drain_Raise (E : env) (st : sched) (pre post : list out)
    (o : out) (e : exn) :
  get_next_ready E (drain_calls st) = pre ++ o :: post ->
  Forall (fun o' => exists m, normalize_out E normalize_final o' = Ok m)
    pre ->
  normalize_out E normalize_final o = Raise e ->
  final_drain E st = Raise e.
Proof.
  intros Houts Hpre Ho. unfold final_drain, call_get_next_ready.
  cbn [drain_calls clock_calls]. rewrite Houts.
  assert (Hd : drain_final E (pre ++ o :: post) = Raise e).
  { unfold drain_final. clear Houts.
    induction Hpre as [|o' pre' [m Hm] _ IH]; cbn [app drain].
    - rewrite Ho. reflexivity.
    - rewrite Hm, IH. reflexivity. }
  rewrite Hd. reflexivity.
Qed.

Lemma normalize_out_zero_latency (E : env) (m : metrics) (text : string)
    (cfg : RequestConfig) (v a e : value) (acc x q : Q) :
  m !! INTER_TOKEN_LAT = Some v -> as_number v = Some acc ->
  m !! NUM_INPUT_TOKENS = Some a -> as_number a = Some x ->
  m !! E2E_LAT = Some e -> as_number e = Some q -> Qeq_bool q 0 = true ->
  (exists m', normalize_out E normalize_in_loop (m, text, cfg) = Ok m')
  /\ normalize_out E normalize_final (m, text, cfg)
     = Raise ZeroDivisionError.
Proof.
  intros Hm Hv Ha Hx He Hq Hz. unfold normalize_out, run_normalizer. split.
  - destruct (normalize_in_loop_zero_latency
                (Z.of_nat (get_token_length E text)) m v a e acc x q
                Hm Hv Ha Hx He Hq Hz) as (m' & -> & _). eauto.
  - pose proof (normalize_final_zero_latency
                  (Z.of_nat (get_token_length E text)) m v a e acc x q
                  Hm Hv Ha Hx He Hq Hz) as H.
    destruct (normalize_final _ m) as [r m1]. cbn in H. rewrite H.
    reflexivity.
Qed.

(** C7.  The drain schedule, and where the drain after the loop departs
    from the claim.  The run always ends.  Every iteration of the loop
    that does not raise counts one iteration; when its index is a
    multiple of [num_concurrent_requests] it asks the launcher once and
    appends, in order, one record per result, normalised as inside the
    loop, and otherwise it neither asks nor appends.  When the loop
    exits, for whichever of its two reasons, every iteration [1..iter]
    has launched one request, the launcher was drained inside the loop
    at exactly the multiples of [num_concurrent_requests], once each,
    and no final drain has happened yet.  The run then asks the launcher exactly once more.
    If every result of that call normalises with the final normaliser,
    the normalised records are appended, in order, to the accumulated
    ones.  If one of them does not, the run raises and nothing is
    appended nor returned: this is what happens for a result whose
    latency is zero, which the drain inside the loop accepts and the
    drain after the loop divides by ([ZeroDivisionError]).  The
    schedule also holds between any two iterations of a run, whether
    or not the run later raises. *)
Theorem drain_schedule (E : env) (P : params) :
  let c := num_concurrent_requests P in
  let st0 := initial E P in
  (exists r, benchmark_run E P = Some r)
  /\ (forall st st',
      loop_step E P (monotonic E 0) st st' ->
      iter st' = iter st + 1
      /\ if is_multiple c (iter st') then
           exists all_metrics,
             Forall2 (fun o m => normalize_out E normalize_in_loop o = Ok m)
               (get_next_ready E (drain_calls st)) all_metrics
             /\ completed_requests st'
                = completed_requests st ++ all_metrics
             /\ drain_calls st' = S (drain_calls st)
         else completed_requests st' = completed_requests st
              /\ drain_calls st' = drain_calls st)
  /\ (forall st,
      scheduler_loop E P (monotonic E 0) (loop_fuel st0) st0 = Some (Ok st) ->
      let outs := get_next_ready E (length (drained_at (trace st))) in
      launched_at (trace st) = iterations_upto (iter st)
      /\ drained_at (trace st)
         = List.filter (is_multiple c) (iterations_upto (iter st))
      /\ (forall i, i ∈ drained_at (trace st)
                    <-> 1 <= i <= iter st /\ i mod c = 0)
      /\ final_drains (trace st) = 0%nat
      /\ (forall ms,
          Forall2 (fun o m => normalize_out E normalize_final o = Ok m)
            outs ms ->
          exists st',
            benchmark_run E P
            = Some (Ok (monotonic E (clock_calls st), st'))
            /\ trace st' = trace st ++ [FinalDrained]
            /\ final_drains (trace st') = 1%nat
            /\ completed_requests st' = completed_requests st ++ ms)
      /\ (forall pre o post e,
          outs = pre ++ o :: post ->
          Forall (fun o' =>
                    exists m, normalize_out E normalize_final o' = Ok m)
            pre ->
          normalize_out E normalize_final o = Raise e ->
          benchmark_run E P = Some (Raise e)
          /\ get_token_throughput_latencies E P = Some (Raise e))
      /\ (forall pre m text cfg post v a e acc x q,
          outs = pre ++ (m, text, cfg) :: post ->
          Forall (fun o' =>
                    exists m', normalize_out E normalize_final o' = Ok m')
            pre ->
          m !! INTER_TOKEN_LAT = Some v -> as_number v = Some acc ->
          m !! NUM_INPUT_TOKENS = Some a -> as_number a = Some x ->
          m !! E2E_LAT = Some e -> as_number e = Some q ->
          Qeq_bool q 0 = true ->
          (exists m',
              normalize_out E normalize_in_loop (m, text, cfg) = Ok m')
          /\ benchmark_run E P = Some (Raise ZeroDivisionError)
          /\ get_token_throughput_latencies E P
             = Some (Raise ZeroDivisionError)))
  /\ forall k st,
      nsteps (loop_step E P (monotonic E 0)) k st0 st ->
      launched_at (trace st) = iterations_upto (iter st)
      /\ drained_at (trace st)
         = List.filter (is_multiple c) (iterations_upto (iter st))
      /\ final_drains (trace st) = 0%nat.
Proof.
  intros c st0. split; [|split; [|split]].
  - unfold benchmark_run. fold st0.
    destruct (scheduler_loop_terminates E P (monotonic E 0)
                (loop_fuel st0) st0) as [r Hr]; [unfold loop_fuel; lia|].
    rewrite Hr. destruct r; eauto.
  - intros st st' [s s1 s2 Ht Hb].
    destruct (loop_test_state _ _ _ _ _ _ Ht)
      as (Hi & _ & _ & Hcr & Hdc & _).
    destruct (loop_body_Ok _ _ _ _ Hb) as (Hi' & _ & _ & _ & cfg & Hcase).
    fold c in Hcase. rewrite Hi in Hi'. rewrite Hi in Hcase.
    split; [exact Hi'|]. rewrite Hi'.
    destruct (is_multiple c (iter s + 1)).
    + destruct Hcase as (ms & Hd & _ & Hc & Hn).
      rewrite Hdc in Hd, Hn. rewrite Hcr in Hc.
      apply drain_Ok_Forall2 in Hd. eauto.
    + destruct Hcase as (_ & Hc & Hn).
      rewrite Hdc in Hn. rewrite Hcr in Hc. auto.
  - intros st Hloop outs.
    destruct (trace_inv_exit E P _ _ _ Hloop) as (Hpos & Hl & Hd & Hf & Hc).
    fold c in Hd.
    assert (Hrun : benchmark_run E P = Some (final_drain E st)).
    { unfold benchmark_run. fold st0. rewrite Hloop. reflexivity. }
    assert (Hraise : forall pre o post e,
               outs = pre ++ o :: post ->
               Forall (fun o' =>
                         exists m, normalize_out E normalize_final o' = Ok m)
                 pre ->
               normalize_out E normalize_final o = Raise e ->
               benchmark_run E P = Some (Raise e)
               /\ get_token_throughput_latencies E P = Some (Raise e)).
    { intros pre o post e Houts Hpre Ho. unfold outs in Houts.
      rewrite <- Hc in Houts.
      pose proof (final_drain_Raise E st pre post o e Houts Hpre Ho) as Hfin.
      rewrite Hfin in Hrun. split; [exact Hrun|].
      unfold get_token_throughput_latencies. rewrite Hrun. reflexivity. }
    split; [exact Hl|]. split; [exact Hd|].
    split; [intros i; rewrite Hd; apply elem_of_drained_multiples|].
    split; [exact Hf|]. split; [|split; [exact Hraise|]].
    + intros ms Hall. unfold outs in Hall. rewrite <- Hc in Hall.
      destruct (final_drain_Ok E st ms Hall) as (st' & Hfin & Htr & _ & Hcr).
      exists st'. rewrite Hrun, Hfin. split; [reflexivity|].
      split; [exact Htr|]. split; [|exact Hcr].
      rewrite Htr, final_drains_app, Hf. reflexivity.
    + intros pre m text cfg post v a e acc x q Houts Hpre
        Hm Hv Ha Hx He Hq Hz.
      destruct (normalize_out_zero_latency E m text cfg v a e acc x q
                  Hm Hv Ha Hx He Hq Hz) as [Hin Hfin].
      split; [exact Hin|].
      exact (Hraise pre (m, text, cfg) post ZeroDivisionError
               Houts Hpre Hfin).
  - intros k st Hsteps.
    destruct (trace_inv_nsteps E P _ _ _ _ Hsteps (trace_inv_initial E P))
      as (_ & Hl & Hd & Hf & _).
    fold c in Hd. auto.
Qed.

(** C10.  The pools and [IndexError].  Both pools start with
    [max_num_completed_requests] entries.  After [k] iterations of the
    loop the iteration counter is [k] and each pool has lost [k]
    entries.  If the loop condition still holds once
    [max_num_completed_requests] iterations are done, the next [pop]
    raises [IndexError] and so does the whole function. *)
Theorem exhausted_pool_raises (E : env) (P : params) (k : nat) (st : sched) :
  let n := Z.to_nat (max_num_completed_requests P) in
  nsteps (loop_step E P (monotonic E 0)) k (initial E P) st ->
  length (num_output_tokens_list (initial E P)) = n
  /\ length (prompts (initial E P)) = n
  /\ iter st = Z.of_nat k
  /\ (k <= n)%nat
  /\ length (num_output_tokens_list st) = (n - k)%nat
  /\ length (prompts st) = (n - k)%nat
  /\ forall st1,
      k = n ->
      loop_test E P (monotonic E 0) st = (true, st1) ->
      loop_body E P st1 = Raise IndexError
      /\ benchmark_run E P = Some (Raise IndexError)
      /\ get_token_throughput_latencies E P = Some (Raise IndexError).
Proof.
  intros n Hsteps.
  destruct (initial_pools E P) as [Ht0 Hp0]. fold n in Ht0, Hp0.
  destruct (nsteps_pools _ _ _ _ _ _ Hsteps) as (Hi & Ht & Hp).
  cbn [initial iter] in Hi.
  split; [exact Ht0|]. split; [exact Hp0|]. split; [lia|].
  split; [lia|]. split; [lia|]. split; [lia|].
  intros st1 Hk Htest.
  assert (Hnil : num_output_tokens_list st = []).
  { apply length_zero_iff_nil. lia. }
  destruct (loop_test_state _ _ _ _ _ _ Htest) as (_ & Htok & _).
  assert (Hbody : loop_body E P st1 = Raise IndexError).
  { unfold loop_body. rewrite Htok, Hnil. reflexivity. }
  assert (Hrun : benchmark_run E P = Some (Raise IndexError)).
  { unfold benchmark_run, loop_fuel. rewrite Ht0.
    replace (S n) with (k + 1)%nat by lia.
    rewrite (nsteps_unfold _ _ _ _ _ _ _ Hsteps).
    cbn [scheduler_loop]. rewrite Htest, Hbody. reflexivity. }
  split; [exact Hbody|]. split; [exact Hrun|].
  unfold get_token_throughput_latencies. rewrite Hrun. reflexivity.
Qed.

Lemma drain_schedule_witness :
  let P := benchmark_params 2 4 3 in
  exists st,
    scheduler_loop late_zero_env P (monotonic late_zero_env 0)
      (loop_fuel (initial late_zero_env P)) (initial late_zero_env P)
    = Some (Ok st)
    /\ drained_at (trace st) = [2]
    /\ length (completed_requests st) = 1%nat
    /\ benchmark_run late_zero_env P = Some (Raise ZeroDivisionError)
    /\ get_token_throughput_latencies late_zero_env P
       = Some (Raise ZeroDivisionError).
Proof.
  intros P.
  exists (from_result (initial late_zero_env P)
            (default (Raise IndexError)
               (scheduler_loop late_zero_env P (monotonic late_zero_env 0)
                  (loop_fuel (initial late_zero_env P))
                  (initial late_zero_env P)))).
  assert (Hloop : scheduler_loop late_zero_env P (monotonic late_zero_env 0)
                    (loop_fuel (initial late_zero_env P))
                    (initial late_zero_env P)
                  = Some (Ok (from_result (initial late_zero_env P)
                                (default (Raise IndexError)
                                   (scheduler_loop late_zero_env P
                                      (monotonic late_zero_env 0)
                                      (loop_fuel (initial late_zero_env P))
                                      (initial late_zero_env P))))))
    by (vm_compute; reflexivity).
  split; [exact Hloop|].
  destruct (proj1 (proj2 (proj2 (drain_schedule late_zero_env P))) _ Hloop)
    as (_ & Hd & _ & _ & _ & _ & Hzero).
  split; [rewrite Hd; vm_compute; reflexivity|].
  split; [vm_compute; reflexivity|].
  apply (Hzero [] zero_latency_record "ab"%string plain_config []
           (VFloat 3) (VInt 5) (VFloat 0) 3%Q 5%Q 0%Q);
    solve [vm_compute; reflexivity | constructor].
Defined.

(** The loop left by the clock, with two requests still not drained:
    the drain after the loop picks one record up. *)
Example timeout_exit_final_drain :
  exists t st,
    benchmark_run busy_env (benchmark_params 2 4 3) = Some (Ok (t, st))
    /\ drained_at (trace st) = [2]
    /\ final_drains (trace st) = 1%nat
    /\ length (completed_requests st) = 2%nat.
Proof. do 2 eexists. split; [vm_compute; reflexivity|]. now vm_compute. Qed.

Lemma exhausted_pool_raises_witness :
  get_token_throughput_latencies idle_env (benchmark_params 2 1 90)
  = Some (Raise IndexError).
Proof.
  eapply (exhausted_pool_raises idle_env (benchmark_params 2 1 90) 1).
  - eapply nsteps_l; [|apply nsteps_O].
    eapply loop_step_intro; vm_compute; reflexivity.
  - reflexivity.
  - vm_compute. reflexivity.
Defined.

(** ** The summary aggregator *)

Lemma result_bind_Ok {A B} (r : result A) (k : A -> result B) (b : B) :
  (r ≫= k) = Ok b -> exists a, r = Ok a /\ k a = Ok b.
Proof. destruct r as [a|e]; [eauto|discriminate]. Qed.

Lemma column_Ok (df : DataFrame) (key : metric_key) (col : list (option value)) :
  column df key = Ok col ->
  key ∈ columns df /\ col = (fun r : metrics => r !! key) <$> rows df.
Proof.
  unfold column. destruct (decide (key ∈ columns df)); [|discriminate].
  intros H. inversion H. auto.
Qed.

Lemma column_present (df : DataFrame) (key : metric_key) :
  key ∈ columns df ->
  column df key = Ok ((fun r : metrics => r !! key) <$> rows df).
Proof.
  intros H. unfold column. destruct (decide (key ∈ columns df)); [done|done].
Qed.

Lemma column_missing (df : DataFrame) (key : metric_key) :
  key ∉ columns df -> column df key = Raise KeyError.
Proof.
  intros H. unfold column. destruct (decide (key ∈ columns df)); [done|done].
Qed.

Lemma elem_of_columns (ms : list metrics) (key : metric_key) :
  key ∈ columns (pd_DataFrame ms)
  <-> exists r, r ∈ ms /\ is_Some (r !! key).
Proof.
  cbn. rewrite elem_of_union_list. split.
  - intros (X & HX & Hk). apply list_elem_of_fmap in HX as (r & -> & Hr).
    exists r. split; [exact Hr|]. apply elem_of_dom. exact Hk.
  - intros (r & Hr & Hk). exists (dom r). split.
    + apply list_elem_of_fmap. eauto.
    + apply elem_of_dom. exact Hk.
Qed.

(** A frame built from no record has no column. *)
Lemma empty_frame_column (key : metric_key) :
  column (pd_DataFrame []) key = Raise KeyError.
Proof.
  apply column_missing. rewrite elem_of_columns.
  intros (r & Hr & _). inversion Hr.
Qed.

Lemma py_mul_float (x : Q) (z : Z) :
  py_mul (VFloat x) (VInt z) = Ok (VFloat (x * inject_Z z)%Q).
Proof. reflexivity. Qed.

(** What a report that was returned is made of. *)
Lemma metrics_summary_Ok (ms : list metrics) (start_time end_time : Q)
    (r : report) :
  metrics_summary ms start_time end_time = Ok r ->
  ERROR_CODE ∈ columns (pd_DataFrame ms)
  /\ Qeq_bool (end_time - start_time) 0 = false
  /\ exists total,
      column_sum ((fun m : metrics => m !! NUM_OUTPUT_TOKENS) <$> ms)
        ((fun m : metrics => m !! NUM_OUTPUT_TOKENS) <$> non_errored ms)
      = Ok total
      /\ output_throughput r
         = NpFinite (total / (end_time - start_time))%Q
      /\ num_requests_started r = Z.of_nat (length ms)
      /\ number_errors r
         = Z.of_nat (length (dropna ((fun m : metrics => m !! ERROR_CODE)
                                       <$> ms)))
      /\ error_rate_expr (number_errors r) (Z.of_nat (length ms))
         = Ok (error_rate r)
      /\ num_completed_requests r = Z.of_nat (length (non_errored ms))
      /\ completed_requests_per_min r
         = VFloat (inject_Z (Z.of_nat (length (non_errored ms)))
                   / (end_time - start_time) * inject_Z 60)%Q.
Proof.
  unfold metrics_summary. intros H.
  apply result_bind_Ok in H as (df' & Hdf & H).
  unfold without_errored in Hdf.
  apply result_bind_Ok in Hdf as (col0 & Hcol0 & Hdf).
  apply column_Ok in Hcol0 as [Hin _]. inversion Hdf; subst df'; clear Hdf.
  apply result_bind_Ok in H as (stats & _ & H).
  apply result_bind_Ok in H as (codes & Hcodes & H).
  apply column_Ok in Hcodes as [_ ->].
  apply result_bind_Ok in H as (rate & Hrate & H).
  apply result_bind_Ok in H as (u & _ & H).
  apply result_bind_Ok in H as (tokens & Htokens & H).
  apply column_Ok in Htokens as [_ ->].
  apply result_bind_Ok in H as (total & Htotal & H).
  apply result_bind_Ok in H as (per_sec & Hsec & H).
  apply result_bind_Ok in H as (per_min & Hmin & H).
  inversion H; subst r; clear H.
  cbn [rows columns pd_DataFrame] in *.
  cbn [output_throughput num_requests_started number_errors error_rate
       num_completed_requests completed_requests_per_min].
  unfold py_truediv in Hsec. cbn [as_number] in Hsec.
  destruct (Qeq_bool (end_time - start_time) 0) eqn:Hz; [discriminate|].
  inversion Hsec; subst per_sec. rewrite py_mul_float in Hmin.
  inversion Hmin; subst per_min.
  split; [exact Hin|]. split; [reflexivity|].
  exists total. unfold non_errored, np_truediv. rewrite Hz.
  repeat split; assumption || reflexivity.
Qed.

Lemma error_rate_expr_Ok (num_errors len_metrics : Z) :
  error_rate_expr num_errors len_metrics
  = Ok (if len_metrics =? 0 then VInt 0
        else VFloat (inject_Z num_errors / inject_Z len_metrics)%Q).
Proof.
  unfold error_rate_expr. rewrite truthy_int.
  destruct (len_metrics =? 0) eqn:E; [reflexivity|]. cbn [negb].
  apply Z.eqb_neq in E. now apply py_truediv_number.
Qed.

Lemma dropna_length (col : list (option value)) :
  (length (dropna col) <= length col)%nat.
Proof.
  unfold dropna. induction col as [|o col IH]; [reflexivity|].
  cbn. destruct (isna o); [|destruct o]; cbn; lia.
Qed.

(** A column of numbers, [None]s and missing entries makes a numeric
    series. *)
Lemma numeric_series (col : list (option value)) :
  Forall (fun o => number_or_missing o = true) col ->
  exists qs, numbers (dropna (flatten col)) = Ok qs.
Proof.
  induction 1 as [|o col Ho _ [qs IH]]; [exists []; reflexivity|].
  unfold flatten, dropna in *. cbn [List.flat_map].
  rewrite omap_app.
  destruct o as [[| z | q | |]|]; try discriminate; cbn.
  - eauto.
  - rewrite IH. eauto.
  - rewrite IH. eauto.
  - eauto.
Qed.

Lemma wrap_int64_small (z : Z) :
  - int64_bound <= z < int64_bound -> wrap_int64 z = z.
Proof.
  unfold wrap_int64, int64_bound, int64_modulus. intros H.
  rewrite Z.mod_small by lia. lia.
Qed.

Lemma readable_record_tokens (r : metrics) :
  readable_record r = true ->
  exists n, r !! NUM_OUTPUT_TOKENS = Some (VInt n) /\ 0 <= n < int64_bound.
Proof.
  unfold readable_record. intros H.
  apply andb_prop in H as [H _]. apply andb_prop in H as [_ H].
  destruct (r !! NUM_OUTPUT_TOKENS) as [[| n | | |]|]; try discriminate.
  apply andb_prop in H as [H1 H2].
  apply Z.leb_le in H1. apply Z.ltb_lt in H2. eauto.
Qed.

(** The output token column of readable records is an [int64] column. *)
Lemma readable_records_int64 (ms : list metrics) :
  ms <> [] -> Forall (fun r => readable_record r = true) ms ->
  infer_dtype ((fun m : metrics => m !! NUM_OUTPUT_TOKENS) <$> ms) = DInt64.
Proof.
  intros Hne Hall.
  assert (H : List.forallb is_int64
                ((fun m : metrics => m !! NUM_OUTPUT_TOKENS) <$> ms) = true).
  { induction Hall as [|r l Hr _ IH]; [reflexivity|].
    cbn [fmap list_fmap List.forallb].
    destruct (readable_record_tokens r Hr) as (n & -> & Hn).
    assert (IH' : List.forallb is_int64
                    ((fun m : metrics => m !! NUM_OUTPUT_TOKENS) <$> l)
                  = true).
    { destruct l; [reflexivity|]. apply IH. discriminate. }
    change (list_fmap _ _ ?f l) with (f <$> l). rewrite IH'.
    cbn [is_int64]. rewrite andb_true_r. apply andb_true_intro. split.
    - apply Z.leb_le. unfold int64_bound in *. lia.
    - apply Z.ltb_lt. lia. }
  unfold infer_dtype. rewrite H. destruct ms; [done|reflexivity].
Qed.

Lemma int_sum_output_tokens (ms : list metrics) :
  int_sum ((fun m : metrics => m !! NUM_OUTPUT_TOKENS) <$> ms)
  = output_tokens ms.
Proof.
  induction ms as [|r ms IH]; [reflexivity|].
  cbn [fmap list_fmap int_sum output_tokens].
  change (list_fmap _ _ ?f ms) with (f <$> ms).
  destruct (r !! NUM_OUTPUT_TOKENS) as [[| n | | |]|]; rewrite IH;
    reflexivity.
Qed.

Lemma output_tokens_nonneg (ms : list metrics) :
  Forall (fun r => readable_record r = true) ms -> 0 <= output_tokens ms.
Proof.
  induction 1 as [|r ms Hr _ IH]; [reflexivity|]. cbn [output_tokens].
  destruct (readable_record_tokens r Hr) as (n & -> & Hn). lia.
Qed.

(** Rows selected from an [int64] column of readable records sum, in 64
    bits, to their total. *)
Lemma readable_column_sum (ms sel : list metrics) :
  ms <> [] -> Forall (fun r => readable_record r = true) ms ->
  column_sum ((fun m : metrics => m !! NUM_OUTPUT_TOKENS) <$> ms)
    ((fun m : metrics => m !! NUM_OUTPUT_TOKENS) <$> sel)
  = Ok (inject_Z (wrap_int64 (output_tokens sel))).
Proof.
  intros Hne Hall. unfold column_sum.
  rewrite (readable_records_int64 ms Hne Hall), int_sum_output_tokens.
  reflexivity.
Qed.

Lemma non_errored_Forall (Q : metrics -> Prop) (ms : list metrics) :
  Forall Q ms -> Forall Q (non_errored ms).
Proof.
  intros H. apply Forall_forall. intros r Hr.
  apply list_elem_of_In, List.filter_In in Hr as [Hr _].
  rewrite Forall_forall in H. apply H, list_elem_of_In, Hr.
Qed.

Lemma non_errored_complete (ms : list metrics) :
  Forall (fun r => complete_record r = true) ms ->
  Forall (fun r => complete_record r = true) (non_errored ms).
Proof. apply non_errored_Forall. Qed.

Lemma readable_record_tracked (r : metrics) (key : metric_key) :
  readable_record r = true -> key ∈ tracked_keys ->
  number_or_missing (r !! key) = true.
Proof.
  unfold readable_record. intros H Hk.
  apply andb_prop in H as [H _]. apply andb_prop in H as [H _].
  rewrite List.forallb_forall in H. apply H, list_elem_of_In, Hk.
Qed.

Lemma complete_record_tracked (r : metrics) (key : metric_key) :
  complete_record r = true -> key ∈ tracked_keys ->
  number_or_none (r !! key) = true.
Proof.
  unfold complete_record. intros H Hk.
  apply andb_prop in H as [H _]. apply andb_prop in H as [H _].
  rewrite List.forallb_forall in H. apply H, list_elem_of_In, Hk.
Qed.

Lemma complete_record_error_code (r : metrics) :
  complete_record r = true ->
  exists v, r !! ERROR_CODE = Some v
            /\ match v with VList _ => false | _ => true end = true.
Proof.
  unfold complete_record. intros H. apply andb_prop in H as [_ H].
  destruct (r !! ERROR_CODE) as [v|]; [|discriminate].
  exists v. split; [reflexivity|]. destruct v; done.
Qed.

Lemma number_or_none_is_Some (o : option value) :
  number_or_none o = true -> is_Some o.
Proof. destruct o; [eauto|discriminate]. Qed.

Lemma number_or_none_missing (o : option value) :
  number_or_none o = true -> number_or_missing o = true.
Proof. destruct o; [auto|discriminate]. Qed.

Lemma complete_record_tokens (r : metrics) :
  complete_record r = true ->
  exists n, r !! NUM_OUTPUT_TOKENS = Some (VInt n) /\ 0 <= n < int64_bound.
Proof.
  unfold complete_record. intros H.
  apply andb_prop in H as [H _]. apply andb_prop in H as [_ H].
  destruct (r !! NUM_OUTPUT_TOKENS) as [[| n | | |]|]; try discriminate.
  apply andb_prop in H as [H1 H2].
  apply Z.leb_le in H1. apply Z.ltb_lt in H2. eauto.
Qed.

(** A complete record is a readable one that has every entry. *)
Lemma complete_record_readable (r : metrics) :
  complete_record r = true -> readable_record r = true.
Proof.
  intros H. unfold readable_record.
  destruct (complete_record_tokens r H) as (n & Hn & Hb).
  destruct (complete_record_error_code r H) as (v & Hv & Hl).
  rewrite Hn, Hv. apply andb_true_intro. split.
  - apply andb_true_intro. split.
    + apply List.forallb_forall. intros key Hk.
      apply number_or_none_missing, complete_record_tracked;
        [exact H|apply list_elem_of_In, Hk].
    + apply andb_true_intro. split; [apply Z.leb_le|apply Z.ltb_lt]; lia.
  - destruct v; done.
Qed.

Lemma forallb_complete (ms : list metrics) :
  List.forallb complete_record ms = true ->
  Forall (fun r => complete_record r = true) ms.
Proof.
  intros Hall. apply Forall_forall. intros r Hr.
  rewrite List.forallb_forall in Hall. apply Hall, list_elem_of_In, Hr.
Qed.

Lemma complete_records_readable (ms : list metrics) :
  Forall (fun r => complete_record r = true) ms ->
  Forall (fun r => readable_record r = true) ms.
Proof.
  intros H. eapply Forall_impl; [exact H|]. apply complete_record_readable.
Qed.

Lemma token_column_sum (ms sel : list metrics) :
  ms <> [] -> Forall (fun r => complete_record r = true) ms ->
  column_sum ((fun m : metrics => m !! NUM_OUTPUT_TOKENS) <$> ms)
    ((fun m : metrics => m !! NUM_OUTPUT_TOKENS) <$> sel)
  = Ok (inject_Z (wrap_int64 (output_tokens sel))).
Proof.
  intros Hne Hall.
  apply readable_column_sum; [exact Hne|].
  now apply complete_records_readable.
Qed.

Lemma summarize_keys_Ok (df : DataFrame) (keys : list metric_key) :
  (forall key, key ∈ keys ->
     key ∈ columns df
     /\ Forall (fun r : metrics => number_or_missing (r !! key) = true)
          (rows df)) ->
  exists stats, summarize_keys df keys = Ok stats.
Proof.
  induction keys as [|key keys IH]; intros H; [exists []; reflexivity|].
  destruct (H key) as [Hin Hnum]; [left|].
  destruct IH as [rest Hrest]; [intros k Hk; apply H; now right|].
  cbn [summarize_keys]. unfold summarize_key, column.
  destruct (decide (key ∈ columns df)); [|done].
  cbn [mbind result_mbind result_bind].
  destruct (numeric_series ((fun r : metrics => r !! key) <$> rows df))
    as [qs Hqs]; [now apply Forall_fmap|].
  rewrite Hqs, Hrest. cbn. eauto.
Qed.

Lemma value_counts_Ok (ms : list metrics) :
  Forall (fun r => readable_record r = true) ms ->
  value_counts (dropna ((fun r : metrics => r !! ERROR_CODE) <$> ms)) = Ok tt.
Proof.
  unfold value_counts, dropna. induction 1 as [|r ms Hr _ IH]; [reflexivity|].
  cbn [fmap list_fmap omap list_omap].
  unfold readable_record in Hr. apply andb_prop in Hr as [_ Hr].
  destruct (r !! ERROR_CODE) as [[| | | |]|]; try discriminate; cbn;
    exact IH.
Qed.

(** What [summarizable] says. *)
Lemma summarizable_spec (ms : list metrics) :
  summarizable ms = true ->
  ms <> []
  /\ Forall (fun r => readable_record r = true) ms
  /\ forall key,
      key = ERROR_CODE \/ key ∈ tracked_keys ->
      key ∈ columns (pd_DataFrame ms).
Proof.
  unfold summarizable. intros H. apply andb_prop in H as [Hall Hcols].
  assert (Hc : forall key,
             key = ERROR_CODE \/ key ∈ tracked_keys ->
             key ∈ columns (pd_DataFrame ms)).
  { intros key Hk. rewrite List.forallb_forall in Hcols.
    assert (Hin : List.In key (ERROR_CODE :: tracked_keys)).
    { destruct Hk as [->|Hk]; [now left|right; apply list_elem_of_In, Hk]. }
    apply Hcols, List.existsb_exists in Hin as (m & Hm & Hsome).
    apply elem_of_columns. exists m. split; [apply list_elem_of_In, Hm|].
    now apply bool_decide_eq_true in Hsome. }
  split; [|split; [|exact Hc]].
  - intros ->. specialize (Hc ERROR_CODE (or_introl eq_refl)).
    apply elem_of_columns in Hc as (m & Hm & _). inversion Hm.
  - apply Forall_forall. intros r Hr.
    rewrite List.forallb_forall in Hall. apply Hall, list_elem_of_In, Hr.
Qed.

(** A non empty list of complete records can be summarised. *)
Lemma complete_summarizable (ms : list metrics) :
  ms <> [] -> Forall (fun r => complete_record r = true) ms ->
  summarizable ms = true.
Proof.
  intros Hne Hall. unfold summarizable. apply andb_true_intro. split.
  - apply List.forallb_forall. intros r Hr.
    rewrite Forall_forall in Hall.
    apply complete_record_readable, Hall, list_elem_of_In, Hr.
  - destruct ms as [|r0 ms']; [done|].
    apply Forall_cons in Hall as [Hr0 _].
    apply List.forallb_forall. intros key Hk.
    cbn [List.existsb]. apply orb_true_intro. left.
    apply bool_decide_eq_true. destruct Hk as [<-|Hk].
    + destruct (complete_record_error_code r0 Hr0) as (v & -> & _). eauto.
    + apply number_or_none_is_Some, complete_record_tracked;
        [exact Hr0|apply list_elem_of_In, Hk].
Qed.

(** On a list the aggregator can summarise every step before the two
    divisions by the window succeeds; the outcome is then decided by the
    window alone. *)
Lemma metrics_summary_summarizable (ms : list metrics)
    (start_time end_time : Q) :
  summarizable ms = true ->
  exists stats,
    metrics_summary ms start_time end_time
    = if Qeq_bool (end_time - start_time) 0
      then Raise ZeroDivisionError
      else
        let num_errors :=
          Z.of_nat (length (dropna ((fun m : metrics => m !! ERROR_CODE)
                                      <$> ms))) in
        let num_completed := Z.of_nat (length (non_errored ms)) in
        Ok {| per_key := stats;
              num_requests_started := Z.of_nat (length ms);
              error_rate :=
                VFloat (inject_Z num_errors
                        / inject_Z (Z.of_nat (length ms)))%Q;
              number_errors := num_errors;
              output_throughput :=
                NpFinite (inject_Z (wrap_int64
                                      (output_tokens (non_errored ms)))
                          / (end_time - start_time))%Q;
              num_completed_requests := num_completed;
              completed_requests_per_min :=
                VFloat (inject_Z num_completed
                        / (end_time - start_time) * inject_Z 60)%Q |}.
Proof.
  intros Hsum. destruct (summarizable_spec ms Hsum) as (Hne & Hall & Hcols).
  pose proof (non_errored_Forall _ ms Hall) as Hall'.
  destruct (summarize_keys_Ok
              {| columns := columns (pd_DataFrame ms);
                 rows := non_errored ms |} tracked_keys) as [stats Hstats].
  { intros key Hk. split; [apply Hcols; now right|]. cbn [rows].
    eapply Forall_impl; [exact Hall'|]. intros r Hr. cbn beta.
    now apply readable_record_tracked. }
  pose proof (readable_column_sum ms (non_errored ms) Hne Hall) as Htotal.
  exists stats.
  unfold metrics_summary, without_errored.
  rewrite (column_present (pd_DataFrame ms) ERROR_CODE)
    by (apply Hcols; now left).
  cbn [mbind result_mbind result_bind].
  change (rows (pd_DataFrame ms)) with ms. fold (non_errored ms).
  rewrite Hstats.
  rewrite (column_present _ NUM_OUTPUT_TOKENS)
    by (apply Hcols; right; set_solver).
  cbn [mbind result_mbind result_bind rows].
  rewrite error_rate_expr_Ok, (value_counts_Ok ms Hall), Htotal.
  cbn [mbind result_mbind result_bind].
  unfold py_truediv, np_truediv. cbn [as_number].
  destruct (Qeq_bool (end_time - start_time) 0); [reflexivity|].
  cbn [mbind result_mbind result_bind]. rewrite py_mul_float.
  cbn [mbind result_mbind result_bind].
  destruct (Z.of_nat (length ms) =? 0) eqn:Hlen; [|reflexivity].
  apply Z.eqb_eq in Hlen. destruct ms; [done|]. cbn in Hlen. lia.
Qed.

Lemma metrics_summary_complete (ms : list metrics) (start_time end_time : Q) :
  ms <> [] ->
  Forall (fun r => complete_record r = true) ms ->
  exists stats,
    metrics_summary ms start_time end_time
    = if Qeq_bool (end_time - start_time) 0
      then Raise ZeroDivisionError
      else
        let num_errors :=
          Z.of_nat (length (dropna ((fun m : metrics => m !! ERROR_CODE)
                                      <$> ms))) in
        let num_completed := Z.of_nat (length (non_errored ms)) in
        Ok {| per_key := stats;
              num_requests_started := Z.of_nat (length ms);
              error_rate :=
                VFloat (inject_Z num_errors
                        / inject_Z (Z.of_nat (length ms)))%Q;
              number_errors := num_errors;
              output_throughput :=
                NpFinite (inject_Z (wrap_int64
                                      (output_tokens (non_errored ms)))
                          / (end_time - start_time))%Q;
              num_completed_requests := num_completed;
              completed_requests_per_min :=
                VFloat (inject_Z num_completed
                        / (end_time - start_time) * inject_Z 60)%Q |}.
Proof.
  intros Hne Hall. apply metrics_summary_summarizable.
  now apply complete_summarizable.
Qed.

Lemma Qeq_bool_false_neq (x : Q) : Qeq_bool x 0 = false <-> ~ (x == 0)%Q.
Proof.
  split.
  - intros H Hx. apply Qeq_bool_iff in Hx. congruence.
  - intros H. destruct (Qeq_bool x 0) eqn:E; [|reflexivity].
    apply Qeq_bool_iff in E. contradiction.
Qed.

Lemma Qdiv_nonneg (a d : Q) : (0 <= a -> 0 < d -> 0 <= a / d)%Q.
Proof. intros Ha Hd. apply Qle_shift_div_l; [exact Hd|]. lra. Qed.

Lemma Qdiv_nonpos (a d : Q) : (0 <= a -> d < 0 -> a / d <= 0)%Q.
Proof.
  intros Ha Hd.
  assert (H : (a / d == - (a / - d))%Q) by (field; lra).
  rewrite H. pose proof (Qdiv_nonneg a (- d) Ha). lra.
Qed.

Lemma Qdiv_zero (a d : Q) : (a == 0 -> a / d == 0)%Q.
Proof. intros ->. unfold Qdiv. apply Qmult_0_l. Qed.

(** Applied to no record the aggregator stops at line 231. *)
Lemma metrics_summary_nil (start_time end_time : Q) :
  metrics_summary [] start_time end_time = Raise KeyError.
Proof.
  unfold metrics_summary, without_errored.
  rewrite empty_frame_column. reflexivity.
Qed.

(** C3.  The empty list.  Applied to no record the aggregator does not
    return a report: the frame has no column, and reading its error-code
    column at line 231 raises [KeyError], whatever the window.  A run
    that completes no request ends this way: with a timeout of zero the
    loop is never entered, the launcher has nothing ready, and the
    benchmark raises instead of returning a summary. *)
Theorem metrics_summary_empty_raises :
  (forall start_time end_time : Q,
     metrics_summary [] start_time end_time = Raise KeyError)
  /\ get_token_throughput_latencies idle_env (benchmark_params 1 5 0)
     = Some (Raise KeyError).
Proof. split; [apply metrics_summary_nil|]. vm_compute. reflexivity. Qed.

(** What the error rate of a returned report is. *)
Lemma error_rate_reported (ms : list metrics) (start_time end_time : Q)
    (r : report) :
  metrics_summary ms start_time end_time = Ok r ->
  let errors :=
    Z.of_nat (length (dropna ((fun m : metrics => m !! ERROR_CODE) <$> ms))) in
  let rate := (inject_Z errors / inject_Z (Z.of_nat (length ms)))%Q in
  ms <> []
  /\ error_rate r = VFloat rate
  /\ (0 <= rate <= 1)%Q
  /\ (errors = 0 -> (rate == 0)%Q).
Proof.
  intros H errors rate.
  apply metrics_summary_Ok in H
    as (Hcol & _ & total & _ & _ & _ & Herr & Hrate & _).
  assert (Hne : ms <> []).
  { apply elem_of_columns in Hcol as (m & Hm & _). intros ->. inversion Hm. }
  split; [exact Hne|].
  assert (Hlen : 0 < Z.of_nat (length ms)).
  { destruct ms; [done|]. cbn. lia. }
  rewrite error_rate_expr_Ok in Hrate.
  destruct (Z.of_nat (length ms) =? 0) eqn:E; [apply Z.eqb_eq in E; lia|].
  inversion Hrate as [Hr]. rewrite Herr. fold errors. fold rate.
  split; [reflexivity|].
  assert (Hle : (inject_Z errors <= inject_Z (Z.of_nat (length ms)))%Q).
  { rewrite <- Zle_Qle. unfold errors.
    pose proof (dropna_length ((fun m : metrics => m !! ERROR_CODE) <$> ms)).
    rewrite length_fmap in *. lia. }
  assert (Hpos : (0 <= inject_Z errors)%Q).
  { change 0%Q with (inject_Z 0). rewrite <- Zle_Qle. unfold errors. lia. }
  assert (Hlen' : (0 < inject_Z (Z.of_nat (length ms)))%Q).
  { change 0%Q with (inject_Z 0). rewrite <- Zlt_Qlt. exact Hlen. }
  split; [split|].
  - now apply Qdiv_nonneg.
  - apply Qle_shift_div_r; [exact Hlen'|]. lra.
  - intros H0. unfold rate. rewrite H0. now apply Qdiv_zero.
Qed.

(** C5.  The error rate on the empty list.  The guarded expression of
    line 265 gives 0 for a count of zero, but a list of no record never
    reaches it: line 263 reads the error-code column, which the empty
    frame does not have, and no report carries an error rate. *)
Theorem error_rate_unreported_on_empty (start_time end_time : Q) :
  error_rate_expr 0 0 = Ok (VInt 0)
  /\ column (pd_DataFrame []) ERROR_CODE = Raise KeyError
  /\ forall r, metrics_summary [] start_time end_time <> Ok r.
Proof.
  split; [reflexivity|]. split; [apply empty_frame_column|].
  intros r. rewrite metrics_summary_nil. discriminate.
Qed.

Lemma summarize_keys_columns (df : DataFrame) (keys : list metric_key)
    (stats : list (metric_key * field_stats)) :
  summarize_keys df keys = Ok stats ->
  forall key, key ∈ keys -> key ∈ columns df.
Proof.
  revert stats. induction keys as [|k keys IH]; intros stats H key Hk.
  - inversion Hk.
  - cbn [summarize_keys] in H.
    apply result_bind_Ok in H as (st & Hst & H).
    apply result_bind_Ok in H as (rest & Hrest & _).
    apply elem_of_cons in Hk as [->|Hk]; [|eauto].
    unfold summarize_key in Hst.
    apply result_bind_Ok in Hst as (col & Hcol & _).
    now apply column_Ok in Hcol as [Hin _].
Qed.

Lemma output_tokens_nil_errored (ms : list metrics) :
  non_errored ms = [] -> output_tokens (non_errored ms) = 0.
Proof. intros ->. reflexivity. Qed.

(** A tracked field that no record carries ends the aggregator in a
    raise. *)
Lemma missing_column_raises (ms : list metrics) (start_time end_time : Q)
    (key : metric_key) :
  key ∈ tracked_keys -> (forall m, m ∈ ms -> m !! key = None) ->
  exists e, metrics_summary ms start_time end_time = Raise e.
Proof.
  intros Hk Hnone.
  destruct (metrics_summary ms start_time end_time) as [r|e] eqn:H; [|eauto].
  exfalso. unfold metrics_summary in H.
  apply result_bind_Ok in H as (df' & Hdf & H).
  unfold without_errored in Hdf.
  apply result_bind_Ok in Hdf as (col0 & _ & Hdf).
  inversion Hdf; subst df'; clear Hdf.
  apply result_bind_Ok in H as (stats & Hstats & _).
  pose proof (summarize_keys_columns _ _ _ Hstats key Hk) as Hin.
  change (key ∈ columns (pd_DataFrame ms)) in Hin.
  apply elem_of_columns in Hin as (m & Hm & [v Hv]).
  rewrite (Hnone m Hm) in Hv. discriminate.
Qed.

(** On readable rows the loop over the tracked keys can only fail on a
    key that is no column, with [KeyError]. *)
Lemma summarize_keys_missing (df : DataFrame) (keys : list metric_key)
    (key : metric_key) :
  key ∈ keys -> key ∉ columns df ->
  (forall k, k ∈ keys ->
     Forall (fun r : metrics => number_or_missing (r !! k) = true)
       (rows df)) ->
  summarize_keys df keys = Raise KeyError.
Proof.
  induction keys as [|k0 keys IH]; intros Hk Hnot Hnum; [inversion Hk|].
  cbn [summarize_keys]. unfold summarize_key, column.
  destruct (decide (k0 ∈ columns df)) as [Hin|Hout]; [|reflexivity].
  cbn [mbind result_mbind result_bind].
  destruct (numeric_series ((fun r : metrics => r !! k0) <$> rows df))
    as [qs Hqs]; [apply Forall_fmap, Hnum; left|].
  rewrite Hqs. cbn [mbind result_mbind result_bind].
  apply elem_of_cons in Hk as [->|Hk]; [contradiction|].
  rewrite IH; [reflexivity|exact Hk|exact Hnot|].
  intros k Hk'. apply Hnum. now right.
Qed.

Lemma missing_column_KeyError (ms : list metrics) (start_time end_time : Q)
    (key : metric_key) :
  key ∈ tracked_keys -> (forall m, m ∈ ms -> m !! key = None) ->
  List.forallb readable_record ms = true ->
  metrics_summary ms start_time end_time = Raise KeyError.
Proof.
  intros Hk Hnone Hall.
  assert (Hall' : Forall (fun r => readable_record r = true) ms).
  { apply Forall_forall. intros r Hr.
    rewrite List.forallb_forall in Hall. apply Hall, list_elem_of_In, Hr. }
  unfold metrics_summary, without_errored, column.
  destruct (decide (ERROR_CODE ∈ columns (pd_DataFrame ms)));
    [|reflexivity].
  cbn [mbind result_mbind result_bind].
  rewrite (summarize_keys_missing _ tracked_keys key); [reflexivity|exact Hk| |].
  - cbn [columns]. intros Hin.
    apply (elem_of_columns ms key) in Hin as (m & Hm & [v Hv]).
    rewrite (Hnone m Hm) in Hv. discriminate.
  - intros k Hk'. cbn [rows pd_DataFrame].
    apply (non_errored_Forall
             (fun r => number_or_missing (r !! k) = true) ms).
    eapply Forall_impl; [exact Hall'|]. intros r Hr. cbn beta.
    now apply readable_record_tracked.
Qed.

(** C6.  Aggregate output throughput, for a window with
    [start_time < end_time].  The empty list gets no report but
    [KeyError].  A list in which some tracked field occurs in no record
    gets no report either; when its records are readable the raise is
    [KeyError]: this is the list of the records the drain inside the
    loop accumulated for a latency of zero, which have no throughput
    entry.  Every list the aggregator can summarise, which a non empty
    list of complete records is, gets a report whose throughput is the
    sum of the output token counts of the records without error code,
    taken in the 64 bits of the column, divided by the length of the
    window; as long as that sum is below 2^63 it is the exact sum
    divided by the window and it is not negative, and it is zero when
    every record is errored. *)
Theorem output_throughput_reported (ms : list metrics)
    (start_time end_time : Q) :
  (start_time < end_time)%Q ->
  (ms = [] -> metrics_summary ms start_time end_time = Raise KeyError)
  /\ (forall key,
        key ∈ tracked_keys -> (forall m, m ∈ ms -> m !! key = None) ->
        (exists e, metrics_summary ms start_time end_time = Raise e)
        /\ (List.forallb readable_record ms = true ->
            metrics_summary ms start_time end_time = Raise KeyError))
  /\ (ms <> [] -> List.forallb complete_record ms = true ->
      summarizable ms = true)
  /\ (summarizable ms = true ->
      exists r,
        metrics_summary ms start_time end_time = Ok r
        /\ output_throughput r
           = NpFinite (inject_Z (wrap_int64 (output_tokens (non_errored ms)))
                       / (end_time - start_time))%Q
        /\ (output_tokens (non_errored ms) < int64_bound ->
            output_throughput r
            = NpFinite (inject_Z (output_tokens (non_errored ms))
                        / (end_time - start_time))%Q
            /\ (0 <= inject_Z (output_tokens (non_errored ms))
                     / (end_time - start_time))%Q)
        /\ (non_errored ms = [] ->
            output_throughput r
            = NpFinite (inject_Z 0 / (end_time - start_time))%Q)).
Proof.
  intros Hwin. split; [|split; [|split]].
  - intros ->. apply metrics_summary_nil.
  - intros key Hk Hnone. split.
    + now apply (missing_column_raises ms start_time end_time key).
    + now apply (missing_column_KeyError ms start_time end_time key).
  - intros Hne Hall. apply complete_summarizable; [exact Hne|].
    now apply forallb_complete.
  - intros Hsum.
    destruct (metrics_summary_summarizable ms start_time end_time Hsum)
      as (stats & Hrun).
    destruct (summarizable_spec ms Hsum) as (_ & Hall & _).
    assert (Hz : Qeq_bool (end_time - start_time) 0 = false).
    { apply Qeq_bool_false_neq. lra. }
    rewrite Hz in Hrun. eexists. split; [exact Hrun|].
    cbn [output_throughput]. split; [reflexivity|].
    pose proof (output_tokens_nonneg _ (non_errored_Forall _ ms Hall))
      as Hpos.
    split.
    + intros Hlt. rewrite wrap_int64_small by (unfold int64_bound in *; lia).
      split; [reflexivity|]. apply Qdiv_nonneg; [|lra].
      change 0%Q with (inject_Z 0). now rewrite <- Zle_Qle.
    + intros Hnone. rewrite (output_tokens_nil_errored ms Hnone).
      reflexivity.
Qed.

Lemma output_throughput_reported_witness :
  let ms := [normalized_record; unset_throughput_record; errored_record] in
  exists r,
    metrics_summary ms 0 10 = Ok r
    /\ output_throughput r
       = NpFinite (inject_Z (wrap_int64 (output_tokens (non_errored ms)))
                   / (10 - 0))%Q
    /\ (output_tokens (non_errored ms) < int64_bound ->
        output_throughput r
        = NpFinite (inject_Z (output_tokens (non_errored ms)) / (10 - 0))%Q
        /\ (0 <= inject_Z (output_tokens (non_errored ms)) / (10 - 0))%Q)
    /\ (non_errored ms = [] ->
        output_throughput r = NpFinite (inject_Z 0 / (10 - 0))%Q).
Proof.
  intros ms.
  apply (proj2 (proj2 (proj2 (output_throughput_reported ms 0 10
                                ltac:(reflexivity))))).
  vm_compute. reflexivity.
Defined.

(** The records of a run in which every request had a latency of zero,
    as the drain inside the loop accumulates them: no report. *)
Example unset_throughput_raises :
  normalize_out idle_env normalize_in_loop
    (zero_latency_record, "ab"%string, plain_config)
  = Ok unset_throughput_record
  /\ List.forallb readable_record [unset_throughput_record] = true
  /\ metrics_summary [unset_throughput_record] 0 10 = Raise KeyError.
Proof. repeat split; vm_compute; reflexivity. Qed.

(** Two successful requests of [2^62] output tokens each: the column is
    an integer column, the sum wraps to [-2^63] and the reported
    throughput is negative. *)
Example token_sum_wraps :
  List.forallb complete_record [huge_record; huge_record] = true
  /\ exists r,
      metrics_summary [huge_record; huge_record] 0 10 = Ok r
      /\ output_throughput r
         = NpFinite (inject_Z (- int64_bound) / (10 - 0))%Q.
Proof.
  split; [vm_compute; reflexivity|].
  eexists. split; vm_compute; reflexivity.
Qed.

(** C2, as the code has it.  The window is not validated.  A window of
    length zero makes the aggregator raise: on a list it can summarise
    the raise is the [ZeroDivisionError] of the
    completed-requests-per-minute division of line 284, the throughput
    division of line 277 being a numpy division that does not raise.  A
    window of negative length is accepted: on a list the aggregator can
    summarise the report comes back with the throughput equal to the
    sum of the output tokens of the records without error code, taken
    in the 64 bits of the column, divided by the negative length, and
    with the completed requests per minute equal to their number
    divided by the negative length, times 60.  The second is at most
    zero, and so is the first as long as the sum is below 2^63. *)
Theorem window_not_validated (ms : list metrics) (start_time end_time : Q) :
  ((end_time - start_time == 0)%Q ->
     exists e, metrics_summary ms start_time end_time = Raise e)
  /\ (summarizable ms = true ->
      ((end_time - start_time == 0)%Q ->
         metrics_summary ms start_time end_time = Raise ZeroDivisionError)
      /\ ((end_time - start_time < 0)%Q ->
          exists r,
            metrics_summary ms start_time end_time = Ok r
            /\ output_throughput r
               = NpFinite (inject_Z (wrap_int64
                                       (output_tokens (non_errored ms)))
                           / (end_time - start_time))%Q
            /\ completed_requests_per_min r
               = VFloat (inject_Z (Z.of_nat (length (non_errored ms)))
                         / (end_time - start_time) * inject_Z 60)%Q
            /\ (inject_Z (Z.of_nat (length (non_errored ms)))
                / (end_time - start_time) * inject_Z 60 <= 0)%Q
            /\ (output_tokens (non_errored ms) < int64_bound ->
                output_throughput r
                = NpFinite (inject_Z (output_tokens (non_errored ms))
                            / (end_time - start_time))%Q
                /\ (inject_Z (output_tokens (non_errored ms))
                    / (end_time - start_time) <= 0)%Q))).
Proof.
  split.
  - intros Hz.
    destruct (metrics_summary ms start_time end_time) as [r|e] eqn:H;
      [|eauto].
    apply metrics_summary_Ok in H as (_ & Hnz & _).
    apply Qeq_bool_false_neq in Hnz. contradiction.
  - intros Hsum.
    destruct (metrics_summary_summarizable ms start_time end_time Hsum)
      as (stats & Hrun).
    destruct (summarizable_spec ms Hsum) as (_ & Hall & _).
    split.
    + intros Hz. apply Qeq_bool_iff in Hz. rewrite Hz in Hrun. exact Hrun.
    + intros Hneg.
      assert (Hz : Qeq_bool (end_time - start_time) 0 = false).
      { apply Qeq_bool_false_neq. lra. }
      rewrite Hz in Hrun. eexists. split; [exact Hrun|].
      cbn [output_throughput completed_requests_per_min].
      split; [reflexivity|]. split; [reflexivity|].
      assert (Hn : (0 <= inject_Z (Z.of_nat (length (non_errored ms))))%Q).
      { change 0%Q with (inject_Z 0). rewrite <- Zle_Qle. lia. }
      pose proof (Qdiv_nonpos _ _ Hn Hneg) as Hdiv.
      split; [change (inject_Z 60) with 60%Q; lra|].
      intros Hlt.
      pose proof (output_tokens_nonneg _ (non_errored_Forall _ ms Hall))
        as Hpos.
      rewrite wrap_int64_small by (unfold int64_bound in *; lia).
      split; [reflexivity|]. apply Qdiv_nonpos; [|exact Hneg].
      change 0%Q with (inject_Z 0). now rewrite <- Zle_Qle.
Qed.

Lemma window_not_validated_witness :
  metrics_summary [normalized_record] 1 1 = Raise ZeroDivisionError
  /\ exists r,
      metrics_summary [normalized_record] 1 0 = Ok r
      /\ output_throughput r
         = NpFinite (inject_Z (wrap_int64
                                 (output_tokens
                                    (non_errored [normalized_record])))
                     / (0 - 1))%Q
      /\ completed_requests_per_min r
         = VFloat (inject_Z (Z.of_nat (length
                                         (non_errored [normalized_record])))
                   / (0 - 1) * inject_Z 60)%Q
      /\ (inject_Z (Z.of_nat (length (non_errored [normalized_record])))
          / (0 - 1) * inject_Z 60 <= 0)%Q
      /\ (output_tokens (non_errored [normalized_record]) < int64_bound ->
          output_throughput r
          = NpFinite (inject_Z (output_tokens
                                  (non_errored [normalized_record]))
                      / (0 - 1))%Q
          /\ (inject_Z (output_tokens (non_errored [normalized_record]))
              / (0 - 1) <= 0)%Q).
Proof.
  split.
  - apply (proj2 (window_not_validated [normalized_record] 1 1));
      [vm_compute; reflexivity|reflexivity].
  - apply (proj2 (window_not_validated [normalized_record] 1 0));
      [vm_compute; reflexivity|reflexivity].
Defined.

(** C2, as the spec has it, fails: with the end of the window before its
    start the aggregator raises nothing and reports a negative
    throughput and a negative rate of completed requests. *)
Lemma negative_window_is_summarized :
  (0 - 1 <= 0)%Q
  /\ (forall e, metrics_summary [normalized_record] 1 0 <> Raise e)
  /\ exists r throughput per_min,
      metrics_summary [normalized_record] 1 0 = Ok r
      /\ output_throughput r = NpFinite throughput
      /\ (throughput == - 2)%Q
      /\ completed_requests_per_min r = VFloat per_min
      /\ (per_min == - 60)%Q.
Proof.
  split; [discriminate|].
  assert (H : exists r throughput per_min,
             metrics_summary [normalized_record] 1 0 = Ok r
             /\ output_throughput r = NpFinite throughput
             /\ (throughput == - 2)%Q
             /\ completed_requests_per_min r = VFloat per_min
             /\ (per_min == - 60)%Q).
  { do 3 eexists. split; [vm_compute; reflexivity|].
    split; [vm_compute; reflexivity|]. split; [reflexivity|].
    split; [vm_compute; reflexivity|]. reflexivity. }
  split; [|exact H].
  destruct H as (r & _ & _ & -> & _). discriminate.
Qed.

(** ** The request description *)

(** C8, as the code has it.  [RequestConfig] is a pydantic model that
    declares no frozen configuration: after construction an assignment
    to any of its seven fields is accepted, the field then reads as the
    value assigned, and every other field reads as before. *)
Theorem request_config_assignable (c : RequestConfig) (a : models.assignment) :
  models.frozen models.RequestConfig_config = false
  /\ models.RequestConfig_setattr c a = Ok (models.assign a c)
  /\ models.read (models.attribute_of a) (models.assign a c) = a
  /\ forall f, f <> models.attribute_of a ->
               models.read f (models.assign a c) = models.read f c.
Proof.
  split; [reflexivity|]. split; [reflexivity|]. split.
  - destruct a; reflexivity.
  - intros f Hf. destruct a, f; try reflexivity; contradiction.
Qed.

Lemma request_config_assignable_witness :
  models.read models.Prompt
    (models.assign (models.SetModel "other") plain_config)
  = models.read models.Prompt plain_config.
Proof.
  apply (proj2 (proj2 (proj2 (request_config_assignable plain_config
                                (models.SetModel "other"))))).
  discriminate.
Defined.

(** C8, as the spec has it, fails: an assignment after construction
    changes the model name of a request description. *)
Lemma request_config_is_mutable :
  exists c',
    models.RequestConfig_setattr plain_config (models.SetModel "other")
      = Ok c'
    /\ models.model c' <> models.model plain_config.
Proof. eexists. split; [reflexivity|]. discriminate. Qed.

(** ** The script entry point *)

(** A namespace the modelled fragment of argparse returns has every
    declared attribute. *)
Lemma parse_args_attributes (py_int : string -> option Z)
    (argv : list string) (args : script.namespace) :
  script.parse_args py_int argv = Some (Ok args) ->
  script.namespace_complete args.
Proof.
  unfold script.parse_args. intros H.
  destruct (script.parse_pairs py_int argv script.defaults)
    as [[ns|e]|]; try discriminate.
  destruct (List.forallb _ script.arguments) eqn:Hall; [|discriminate].
  inversion H; subst ns. intros a Ha.
  rewrite List.forallb_forall in Hall.
  apply list_elem_of_In, Hall in Ha. now apply bool_decide_eq_true in Ha.
Qed.

Lemma eval_arguments_Ok (ns : script.namespace)
    (call : list (string * option string)) :
  (forall attr, attr ∈ omap snd call -> is_Some (ns !! attr)) ->
  script.eval_arguments ns call = Ok tt.
Proof.
  induction call as [|[k [attr|]] call IH]; intros H; [reflexivity| |].
  - cbn [script.eval_arguments]. unfold script.getattr.
    destruct (H attr) as [v ->]; [left|]. cbn. apply IH.
    intros attr' H'. apply H. now right.
  - cbn [script.eval_arguments]. apply IH. intros attr' H'. now apply H.
Qed.

Lemma main_call_attributes (attr : string) :
  attr ∈ omap snd script.main_call ->
  exists a, a ∈ script.arguments /\ script.dest a = attr.
Proof.
  assert (H : List.forallb
                (fun attr =>
                   List.existsb
                     (fun a => String.eqb (script.dest a) attr)
                     script.arguments)
                (omap snd script.main_call) = true) by reflexivity.
  rewrite List.forallb_forall in H. intros Hin.
  apply list_elem_of_In, H, List.existsb_exists in Hin as (a & Ha & Heq).
  exists a. split; [now apply list_elem_of_In|now apply String.eqb_eq].
Qed.

(** C9, as the code has it.  Once [ray.init] has returned, argparse
    has accepted the command line, so that the namespace has every
    declared attribute, and the metadata string has been split, the
    call of [run_token_benchmark] raises [TypeError]: three of its
    keywords are no parameters of the function.  The body of the
    function is not entered, whatever it is. *)
Theorem main_call_raises_TypeError {A}
    (body : script.namespace -> gmap string string -> result A)
    (args : script.namespace) (user_metadata : gmap string string) :
  script.namespace_complete args ->
  (md ← script.getattr args "metadata"; script.parse_metadata md)
    = Ok user_metadata ->
  script.main (Ok tt) (Ok args) body = Raise TypeError
  /\ List.filter
       (fun k => negb (script.has_name k
                         (fst <$> script.run_token_benchmark_params)))
       (fst <$> script.main_call)
     = ["mean_input_tokens"; "stddev_input_tokens"; "results_dir"]%string.
Proof.
  intros Hargs Hmd. split; [|reflexivity].
  unfold script.main. cbn [mbind result_mbind result_bind].
  apply result_bind_Ok in Hmd as (md & Hget & Hmd).
  rewrite Hget. cbn [mbind result_mbind result_bind].
  rewrite Hmd. cbn [mbind result_mbind result_bind].
  rewrite eval_arguments_Ok; [reflexivity|].
  intros attr Hattr.
  destruct (main_call_attributes attr Hattr) as (a & Ha & <-).
  exact (Hargs a Ha).
Qed.

Lemma main_call_raises_TypeError_witness :
  script.parse_args (fun _ => None) sample_argv = Some (Ok sample_namespace)
  /\ script.main (Ok tt) (Ok sample_namespace) (fun _ _ => Ok tt)
     = Raise TypeError.
Proof.
  assert (H : script.parse_args (fun _ => None) sample_argv
              = Some (Ok sample_namespace)) by (vm_compute; reflexivity).
  split; [exact H|].
  apply (proj1 (main_call_raises_TypeError (fun _ _ => Ok tt)
                  sample_namespace
                  sample_user_metadata
                  (parse_args_attributes _ _ _ H)
                  ltac:(vm_compute; reflexivity))).
Defined.

(** C9, as the spec has it, fails: on the empty command line argparse
    ends the process ([SystemExit]), [--model] being required, and a
    metadata item without [=] ends the script in [ValueError]; neither
    is a [TypeError]. *)
Lemma main_not_always_TypeError :
  script.parse_args (fun _ => None) [] = Some (Raise SystemExit)
  /\ script.main (Ok tt) (Raise SystemExit) (fun _ _ => Ok tt)
     = Raise SystemExit
  /\ exists args,
      script.parse_args (fun _ => None)
        ["--model"; "m"; "--metadata"; "name"]%string = Some (Ok args)
      /\ script.main (Ok tt) (Ok args) (fun _ _ => Ok tt)
         = Raise ValueError.
Proof.
  split; [vm_compute; reflexivity|]. split; [reflexivity|].
  eexists. split; vm_compute; reflexivity.
Qed.

(** * Further properties of the code *)

(** ** The normaliser and the drains (lines 131-148 and 159-176) *)

Lemma normalize_tokens_counts (n : Z) (m : metrics) (v : value) (acc : Q)
    (a : Z) :
  m !! INTER_TOKEN_LAT = Some v -> as_number v = Some acc ->
  m !! NUM_INPUT_TOKENS = Some (VInt a) ->
  (normalize_tokens n m).1 = Ok tt
  /\ (normalize_tokens n m).2 !! NUM_OUTPUT_TOKENS = Some (VInt n)
  /\ (normalize_tokens n m).2 !! NUM_TOTAL_TOKENS = Some (VInt (a + n)).
Proof.
  intros Hm Hv Ha. unfold_stmt. rewrite truthy_int.
  destruct (n =? 0) eqn:E; simpl.
  - simplify_map_eq. simpl. simplify_map_eq. done.
  - apply Z.eqb_neq in E. rewrite Hm, (py_truediv_number v acc n Hv E).
    simplify_map_eq. simpl. simplify_map_eq. done.
Qed.

(** X1.  Where every drained record has a truthy end-to-end latency, the
    drain after the loop gives exactly what the drain inside the loop
    gives on the same results: same records, same raise. *)
Theorem drains_agree_on_truthy_latency (E : env) (outs : list out) :
  Forall (fun o : out =>
            exists e, o.1.1 !! E2E_LAT = Some e /\ truthy e = true) outs ->
  drain_final E outs = drain_in_loop E outs.
Proof.
  unfold drain_final, drain_in_loop.
  induction 1 as [|[[m text] cfg] outs (e & He & Ht) _ IH]; [reflexivity|].
  cbn [drain]. rewrite IH. unfold normalize_out, run_normalizer.
  cbn [fst] in He. rewrite (normalize_final_agrees _ m e He Ht). reflexivity.
Qed.

Lemma drains_agree_on_truthy_latency_witness :
  drain_final idle_env [(raw_record, "ab"%string, plain_config)]
  = drain_in_loop idle_env [(raw_record, "ab"%string, plain_config)].
Proof.
  apply drains_agree_on_truthy_latency.
  constructor; [|constructor]. exists (VFloat 2). split; reflexivity.
Defined.

(** X2.  The derived fields.  For a raw record with a numeric
    accumulator, an integer input token count and a numeric latency
    other than zero, both drains succeed with the same record, in which
    the output token count is the tokenizer's count, the total is input
    plus output, and the throughput is the output count divided by the
    latency. *)
Theorem normalized_derived_fields (E : env) (m : metrics) (text : string)
    (cfg : RequestConfig) (v e : value) (acc q : Q) (a : Z) :
  m !! INTER_TOKEN_LAT = Some v -> as_number v = Some acc ->
  m !! NUM_INPUT_TOKENS = Some (VInt a) ->
  m !! E2E_LAT = Some e -> as_number e = Some q -> Qeq_bool q 0 = false ->
  let n := Z.of_nat (get_token_length E text) in
  exists m',
    normalize_out E normalize_in_loop (m, text, cfg) = Ok m'
    /\ normalize_out E normalize_final (m, text, cfg) = Ok m'
    /\ m' !! NUM_OUTPUT_TOKENS = Some (VInt n)
    /\ m' !! NUM_TOTAL_TOKENS = Some (VInt (a + n))
    /\ m' !! REQ_OUTPUT_THROUGHPUT = Some (VFloat (inject_Z n / q)%Q).
Proof.
  intros Hm Hv Ha He Hq Hz n.
  assert (Ht : truthy e = true) by (rewrite (truthy_number e q Hq), Hz; done).
  unfold normalize_out, run_normalizer. fold n.
  rewrite <- (normalize_final_agrees n m e He Ht).
  destruct (normalize_tokens_counts n m v acc a Hm Hv Ha) as (Hok & Hout & Htot).
  pose proof (normalize_tokens_frame n m E2E_LAT) as Hf.
  unfold normalize_final, mbind, stmt_mbind.
  destruct (normalize_tokens n m) as [r m1]. simpl in *. subst r.
  unfold set_throughput, mbind, stmt_mbind, getitem, lift, setitem.
  rewrite Hf, He by discriminate.
  unfold py_truediv. cbn [as_number]. rewrite Hq, Hz.
  eexists. split; [reflexivity|]. split; [reflexivity|].
  simplify_map_eq. done.
Qed.

Lemma normalized_derived_fields_witness :
  exists m',
    normalize_out idle_env normalize_in_loop
      (raw_record, "ab"%string, plain_config) = Ok m'
    /\ normalize_out idle_env normalize_final
         (raw_record, "ab"%string, plain_config) = Ok m'
    /\ m' !! NUM_OUTPUT_TOKENS = Some (VInt 2)
    /\ m' !! NUM_TOTAL_TOKENS = Some (VInt (5 + 2))
    /\ m' !! REQ_OUTPUT_THROUGHPUT = Some (VFloat (inject_Z 2 / 2)%Q).
Proof.
  apply (normalized_derived_fields idle_env raw_record "ab"%string
           plain_config (VFloat 3) (VFloat 2) 3%Q 2%Q 5); reflexivity.
Defined.

(** X3.  What the normaliser leaves alone.  Neither drain reads or
    writes any entry other than the inter-token latency, the two token
    counts and the throughput: time to first token, latency, input token
    count, error code and error message come out as they went in, even
    when a statement raises on the way. *)
Theorem normalization_keeps_other_fields (n : Z) (m : metrics)
    (key : metric_key) :
  key <> INTER_TOKEN_LAT -> key <> NUM_OUTPUT_TOKENS ->
  key <> NUM_TOTAL_TOKENS -> key <> REQ_OUTPUT_THROUGHPUT ->
  (normalize_in_loop n m).2 !! key = m !! key
  /\ (normalize_final n m).2 !! key = m !! key.
Proof.
  intros H1 H2 H3 H4. split; unfold_stmt; step_stmt.
Qed.

Lemma normalization_keeps_other_fields_witness :
  (normalize_in_loop 2 zero_latency_record).2 !! ERROR_CODE
    = zero_latency_record !! ERROR_CODE
  /\ (normalize_final 2 zero_latency_record).2 !! ERROR_CODE
    = zero_latency_record !! ERROR_CODE.
Proof.
  apply (normalization_keeps_other_fields 2 zero_latency_record ERROR_CODE);
    discriminate.
Defined.

(** X4.  Missing raw fields.  A record without the accumulator raises
    [KeyError] in both drains as soon as the text has a token; a record
    with a numeric accumulator but no input token count raises
    [KeyError]; and so does one that has both but no latency. *)
Theorem missing_raw_field_raises (n : Z) (m : metrics) :
  (n <> 0 -> m !! INTER_TOKEN_LAT = None ->
     (normalize_in_loop n m).1 = Raise KeyError
     /\ (normalize_final n m).1 = Raise KeyError)
  /\ (forall v acc,
        m !! INTER_TOKEN_LAT = Some v -> as_number v = Some acc ->
        m !! NUM_INPUT_TOKENS = None ->
        (normalize_in_loop n m).1 = Raise KeyError
        /\ (normalize_final n m).1 = Raise KeyError)
  /\ (forall v acc a x,
        m !! INTER_TOKEN_LAT = Some v -> as_number v = Some acc ->
        m !! NUM_INPUT_TOKENS = Some a -> as_number a = Some x ->
        m !! E2E_LAT = None ->
        (normalize_in_loop n m).1 = Raise KeyError
        /\ (normalize_final n m).1 = Raise KeyError).
Proof.
  split; [|split].
  - intros Hn Hm. apply Z.eqb_neq in Hn.
    split; unfold_stmt; rewrite truthy_int, Hn; simpl; rewrite Hm;
      reflexivity.
  - intros v acc Hm Hv Ha.
    split; unfold_stmt; rewrite truthy_int;
      (destruct (n =? 0) eqn:E; simpl;
       [|apply Z.eqb_neq in E;
         rewrite Hm, (py_truediv_number v acc n Hv E)]);
      simplify_map_eq; reflexivity.
  - intros v acc a x Hm Hv Ha Hx He.
    pose proof (normalize_tokens_ok n m v a acc x Hm Hv Ha Hx) as Hok.
    pose proof (normalize_tokens_frame n m E2E_LAT) as Hf.
    split.
    + unfold normalize_in_loop, mbind, stmt_mbind.
      destruct (normalize_tokens n m) as [r m1]. simpl in *. subst r.
      unfold getitem. rewrite Hf, He by discriminate. reflexivity.
    + unfold normalize_final, mbind, stmt_mbind.
      destruct (normalize_tokens n m) as [r m1]. simpl in *. subst r.
      unfold set_throughput, mbind, stmt_mbind, getitem.
      rewrite Hf, He by discriminate. reflexivity.
Qed.

Lemma missing_raw_field_raises_witness :
  (normalize_in_loop 2 (delete NUM_INPUT_TOKENS raw_record)).1
    = Raise KeyError
  /\ (normalize_final 2 (delete NUM_INPUT_TOKENS raw_record)).1
    = Raise KeyError.
Proof.
  apply (proj1 (proj2 (missing_raw_field_raises 2
                         (delete NUM_INPUT_TOKENS raw_record)))
           (VFloat 3) 3%Q); reflexivity.
Defined.

(** X5.  A drain maps its results one to one and in order: it returns a
    list exactly when every result normalises without a raise, and the
    list then holds the normalised records in the order the launcher
    gave them. *)
Theorem drain_maps_in_order (E : env) (norm : Z -> stmt unit)
    (outs : list out) (ms : list metrics) :
  drain E norm outs = Ok ms
  <-> Forall2 (fun o m => normalize_out E norm o = Ok m) outs ms.
Proof.
  revert ms. induction outs as [|o outs IH]; intros ms; cbn [drain].
  - split.
    + intros H. inversion H. constructor.
    + intros H. inversion H. reflexivity.
  - split.
    + intros H. apply result_bind_Ok in H as (m & Hm & H).
      apply result_bind_Ok in H as (ms' & Hms & H).
      inversion H; subst ms. constructor; [exact Hm|]. now apply IH.
    + intros H. inversion H as [|? m ? ms' Hm Hms]; subst.
      rewrite Hm. cbn [mbind result_mbind result_bind].
      apply IH in Hms. rewrite Hms. reflexivity.
Qed.

Lemma drain_maps_in_order_witness :
  Forall2 (fun o m => normalize_out idle_env normalize_in_loop o = Ok m)
    [(raw_record, "ab"%string, plain_config);
     (zero_latency_record, "ab"%string, plain_config)]
    [normalized_record; (normalize_in_loop 2 zero_latency_record).2].
Proof.
  apply (proj1 (drain_maps_in_order idle_env normalize_in_loop _ _)).
  vm_compute. reflexivity.
Defined.

(** X6.  A drain is all or nothing: the first result whose normalisation
    raises ends the drain with that raise, whatever comes after it, and
    none of the records before it is returned. *)
Theorem drain_stops_at_first_raise (E : env) (norm : Z -> stmt unit)
    (pre post : list out) (o : out) (e : exn) :
  Forall (fun o' => exists m, normalize_out E norm o' = Ok m) pre ->
  normalize_out E norm o = Raise e ->
  drain E norm (pre ++ o :: post) = Raise e.
Proof.
  intros Hpre Ho. induction Hpre as [|o' pre [m Hm] _ IH]; cbn [app drain].
  - rewrite Ho. reflexivity.
  - rewrite Hm, IH. reflexivity.
Qed.

Lemma drain_stops_at_first_raise_witness :
  drain idle_env normalize_final
    ([(raw_record, "ab"%string, plain_config)]
     ++ (zero_latency_record, "ab"%string, plain_config)
        :: [(raw_record, "abc"%string, plain_config)])
  = Raise ZeroDivisionError.
Proof.
  apply drain_stops_at_first_raise.
  - constructor; [|constructor]. eexists. vm_compute. reflexivity.
  - vm_compute. reflexivity.
Defined.

(** ** The scheduler loop (lines 99-176) *)

Lemma Qlt_bool_false (a b : Q) : Qlt_bool a b = false <-> (b <= a)%Q.
Proof.
  unfold Qlt_bool. rewrite negb_false_iff. apply Qle_bool_iff.
Qed.



(** What one iteration does to the pools and which request it launches. *)
Lemma loop_body_launch (E : env) (P : params) (st st' : sched) :
  loop_body E P st = Ok st' ->
  exists max_tokens prompt rest,
    num_output_tokens_list st = num_output_tokens_list st' ++ [max_tokens]
    /\ prompts st = prompts st' ++ [prompt]
    /\ trace st'
       = trace st
         ++ Launched (iter st + 1)
              {| models.model := model P;
                 models.prompt := prompt;
                 models.sampling_params :=
                   Some (sampling_base P
                         ∪ {[ "max_tokens"%string := VInt max_tokens ]});
                 models.llm_api := Some (llm_api P);
                 models.metadata := None;
                 models.header_params := header_params P;
                 models.verify_ssl := verify_ssl P |}
            :: rest.
Proof.
  unfold loop_body, mbind, result_mbind, result_bind.
  destruct (py_pop (num_output_tokens_list st)) as [[n tokens']|]
    eqn:Htok; [|discriminate].
  destruct (py_pop (prompts st)) as [[pr prompts']|] eqn:Hpr;
    [|discriminate].
  apply py_pop_Ok in Htok. apply py_pop_Ok in Hpr.
  unfold drain_step. cbn [iter drain_calls].
  destruct (num_concurrent_requests P =? 0); [discriminate|].
  destruct ((iter st + 1) mod num_concurrent_requests P =? 0).
  - unfold call_get_next_ready. cbn.
    destruct (drain_in_loop E (get_next_ready E (drain_calls st)))
      as [ms|]; [|discriminate].
    intros H. inversion H; subst; clear H. cbn.
    exists n, pr, [Drained (iter st + 1)].
    rewrite <- app_assoc. auto.
  - intros H. inversion H; subst; clear H. cbn.
    exists n, pr, []. auto.
Qed.

Lemma nsteps_pool_prefix (E : env) (P : params) (start_time : Q)
    (k : nat) (st st' : sched) :
  nsteps (loop_step E P start_time) k st st' ->
  num_output_tokens_list st'
  = take (length (num_output_tokens_list st) - k) (num_output_tokens_list st)
  /\ prompts st' = take (length (prompts st) - k) (prompts st).
Proof.
  induction 1 as [st|k st st1 st' Hstep _ [IHt IHp]].
  - rewrite !Nat.sub_0_r, !firstn_all. auto.
  - destruct Hstep as [st0 sta stb Ht Hb].
    destruct (loop_test_state _ _ _ _ _ _ Ht) as (_ & Htok & Hpr & _).
    destruct (loop_body_launch _ _ _ _ Hb) as (x & p & rest & Hx & Hp & _).
    rewrite Htok in Hx. rewrite Hpr in Hp.
    rewrite IHt, IHp, Hx, Hp, !length_app. cbn [length].
    split; rewrite take_app_le by lia; f_equal; lia.
Qed.

(** X8.  The pools are used from the end.  After [k] iterations from the
    start of the run the remaining output token targets are the first
    [n - k] samples, in the order they were drawn, so the [(k+1)]-th
    request carries the sample drawn [(n-k)]-th; the remaining prompts
    are [n - k] copies of the one prompt. *)
Theorem pools_are_used_from_the_end (E : env) (P : params) (k : nat)
    (st : sched) :
  let n := Z.to_nat (max_num_completed_requests P) in
  nsteps (loop_step E P (monotonic E 0)) k (initial E P) st ->
  num_output_tokens_list st
  = (fun i => sample_random_positive_int E (mean_output_tokens P)
                (stddev_output_tokens P) i) <$> seq 0 (n - k)
  /\ prompts st = replicate (n - k) (prompt_input E P).
Proof.
  intros n Hsteps.
  destruct (nsteps_pool_prefix _ _ _ _ _ _ Hsteps) as [Ht Hp].
  destruct (initial_pools E P) as [Hlt Hlp]. fold n in Hlt, Hlp.
  rewrite Hlt in Ht. rewrite Hlp in Hp. rewrite Ht, Hp.
  cbn [initial num_output_tokens_list prompts]. unfold sampled_tokens.
  fold n. split.
  - rewrite <- fmap_take. f_equal.
    rewrite take_seq. f_equal. lia.
  - rewrite take_replicate. f_equal. lia.
Qed.

Lemma pools_are_used_from_the_end_witness :
  exists st,
    nsteps (loop_step idle_env (benchmark_params 2 3 90)
              (monotonic idle_env 0)) 1
      (initial idle_env (benchmark_params 2 3 90)) st
    /\ num_output_tokens_list st = [1; 1].
Proof.
  assert (H : exists st,
             nsteps (loop_step idle_env (benchmark_params 2 3 90)
                       (monotonic idle_env 0)) 1
               (initial idle_env (benchmark_params 2 3 90)) st).
  { eexists. eapply nsteps_l; [|apply nsteps_O].
    eapply loop_step_intro; vm_compute; reflexivity. }
  destruct H as [st H]. exists st. split; [exact H|].
  exact (proj1 (pools_are_used_from_the_end idle_env
                  (benchmark_params 2 3 90) 1 st H)).
Defined.

(** X9.  The request an iteration launches.  It carries the model, the
    API name, the header parameters and the TLS flag of the run, the
    prompt popped from the pool, and sampling parameters made of the
    user's additional parameters plus [max_tokens]: the popped target
    when the user gave none, the user's own value otherwise. *)
Theorem launched_request_config (E : env) (P : params) (st st' : sched) :
  loop_body E P st = Ok st' ->
  exists max_tokens prompt cfg sp rest,
    last (num_output_tokens_list st) = Some max_tokens
    /\ last (prompts st) = Some prompt
    /\ trace st' = trace st ++ Launched (iter st + 1) cfg :: rest
    /\ models.model cfg = model P
    /\ models.prompt cfg = prompt
    /\ models.llm_api cfg = Some (llm_api P)
    /\ models.header_params cfg = header_params P
    /\ models.verify_ssl cfg = verify_ssl P
    /\ models.sampling_params cfg = Some sp
    /\ (forall k v, sampling_base P !! k = Some v -> sp !! k = Some v)
    /\ (forall k, k <> "max_tokens"%string -> sp !! k = sampling_base P !! k)
    /\ (sampling_base P !! "max_tokens"%string = None ->
        sp !! "max_tokens"%string = Some (VInt max_tokens)).
Proof.
  intros Hb.
  destruct (loop_body_launch _ _ _ _ Hb) as (n & pr & rest & Hx & Hp & Htr).
  eexists n, pr, _, _, rest.
  split; [rewrite Hx; apply last_snoc|].
  split; [rewrite Hp; apply last_snoc|].
  split; [exact Htr|]. cbn.
  repeat (split; [reflexivity|]). split; [|split].
  - intros k v Hk. apply lookup_union_Some_l. exact Hk.
  - intros k Hk. destruct (sampling_base P !! k) as [v|] eqn:Hv.
    + apply lookup_union_Some_l. exact Hv.
    + apply lookup_union_None. split; [exact Hv|].
      apply lookup_singleton_ne. congruence.
  - intros Hnone. rewrite lookup_union_r by exact Hnone.
    apply lookup_singleton_eq.
Qed.

Lemma launched_request_config_witness :
  exists max_tokens prompt cfg sp rest,
    last (num_output_tokens_list
            (initial idle_env (benchmark_params 2 3 90))) = Some max_tokens
    /\ last (prompts (initial idle_env (benchmark_params 2 3 90)))
       = Some prompt
    /\ trace (from_result (initial idle_env (benchmark_params 2 3 90))
                (loop_body idle_env (benchmark_params 2 3 90)
                   (initial idle_env (benchmark_params 2 3 90))))
       = trace (initial idle_env (benchmark_params 2 3 90))
         ++ Launched (iter (initial idle_env (benchmark_params 2 3 90)) + 1)
              cfg :: rest
    /\ models.model cfg = model (benchmark_params 2 3 90)
    /\ models.prompt cfg = prompt
    /\ models.llm_api cfg = Some (llm_api (benchmark_params 2 3 90))
    /\ models.header_params cfg = header_params (benchmark_params 2 3 90)
    /\ models.verify_ssl cfg = verify_ssl (benchmark_params 2 3 90)
    /\ models.sampling_params cfg = Some sp
    /\ (forall k v, sampling_base (benchmark_params 2 3 90) !! k = Some v ->
                    sp !! k = Some v)
    /\ (forall k, k <> "max_tokens"%string ->
                  sp !! k = sampling_base (benchmark_params 2 3 90) !! k)
    /\ (sampling_base (benchmark_params 2 3 90) !! "max_tokens"%string = None ->
        sp !! "max_tokens"%string = Some (VInt max_tokens)).
Proof.
  apply (launched_request_config idle_env (benchmark_params 2 3 90)).
  vm_compute. reflexivity.
Defined.

(** X10.  Accumulated records stay.  Whatever the loop and the drain
    after it add, the records accumulated before are still there, in
    the same order, at the front of the list. *)
Theorem completed_requests_only_grow (E : env) (P : params)
    (start_time : Q) (fuel : nat) (st st' : sched) :
  scheduler_loop E P start_time fuel st = Some (Ok st') ->
  completed_requests st `prefix_of` completed_requests st'
  /\ forall end_time st'',
      final_drain E st' = Ok (end_time, st'') ->
      completed_requests st `prefix_of` completed_requests st''.
Proof.
  intros Hloop.
  assert (Hpre : completed_requests st `prefix_of` completed_requests st').
  { apply (scheduler_loop_invariant E P start_time
             (fun s => completed_requests st `prefix_of` completed_requests s))
      with (fuel := fuel) (st := st); [| |reflexivity|exact Hloop].
    - intros s s1 b Hs Ht.
      destruct (loop_test_state _ _ _ _ _ _ Ht) as (_ & _ & _ & -> & _).
      exact Hs.
    - intros s s' Hs Hb.
      destruct (loop_body_Ok _ _ _ _ Hb) as (_ & _ & _ & _ & cfg & Hcase).
      destruct (is_multiple _ _).
      + destruct Hcase as (ms & _ & _ & -> & _).
        etransitivity; [exact Hs|]. now apply prefix_app_r.
      + destruct Hcase as (_ & -> & _). exact Hs. }
  split; [exact Hpre|]. intros end_time st'' Hfin.
  unfold final_drain, call_get_next_ready in Hfin.
  apply result_bind_Ok in Hfin as (ms & _ & Hfin).
  inversion Hfin; subst. cbn. now apply prefix_app_r.
Qed.

Lemma completed_requests_only_grow_witness :
  completed_requests (initial busy_env (benchmark_params 1 2 90))
    `prefix_of`
  completed_requests
    (from_result (initial busy_env (benchmark_params 1 2 90))
       (default (Raise KeyError)
          (scheduler_loop busy_env (benchmark_params 1 2 90) 0 3
             (initial busy_env (benchmark_params 1 2 90))))).
Proof.
  apply (proj1 (completed_requests_only_grow busy_env
                  (benchmark_params 1 2 90) 0 3
                  (initial busy_env (benchmark_params 1 2 90))
                  (from_result (initial busy_env (benchmark_params 1 2 90))
                     (default (Raise KeyError)
                        (scheduler_loop busy_env (benchmark_params 1 2 90)
                           0 3
                           (initial busy_env (benchmark_params 1 2 90)))))
                  ltac:(vm_compute; reflexivity))).
Defined.

(** X11.  Why the loop ends.  When the loop exits without a raise, one
    of its two stop conditions holds at the last reading of the clock:
    the time elapsed since the start has reached the timeout, or the
    number of accumulated records has reached the maximum. *)
Theorem loop_exit_reason (E : env) (P : params) (start_time : Q)
    (fuel : nat) (st st' : sched) :
  scheduler_loop E P start_time fuel st = Some (Ok st') ->
  exists last_reading,
    clock_calls st' = S last_reading
    /\ ((test_timeout_s P <= monotonic E last_reading - start_time)%Q
        \/ max_num_completed_requests P
           <= Z.of_nat (length (completed_requests st'))).
Proof.
  revert st. induction fuel as [|fuel IH]; intros st; [discriminate|].
  cbn [scheduler_loop].
  destruct (loop_test E P start_time st) as [b st1] eqn:Ht. destruct b.
  - destruct (loop_body E P st1) as [st2|e]; [apply IH|discriminate].
  - intros H. injection H as <-.
    unfold loop_test in Ht. inversion Ht as [[Hc Hst]].
    exists (clock_calls st). cbn.
    split; [reflexivity|].
    apply andb_false_iff in Hc as [Hc|Hc].
    + left. now apply Qlt_bool_false.
    + right. now apply Z.ltb_ge.
Qed.

Lemma loop_exit_reason_witness :
  exists last_reading,
    clock_calls
      (from_result (initial busy_env (benchmark_params 2 4 3))
         (default (Raise KeyError)
            (scheduler_loop busy_env (benchmark_params 2 4 3) 0 5
               (initial busy_env (benchmark_params 2 4 3)))))
    = S last_reading
    /\ ((test_timeout_s (benchmark_params 2 4 3)
         <= monotonic busy_env last_reading - 0)%Q
        \/ max_num_completed_requests (benchmark_params 2 4 3)
           <= Z.of_nat
                (length
                   (completed_requests
                      (from_result (initial busy_env (benchmark_params 2 4 3))
                         (default (Raise KeyError)
                            (scheduler_loop busy_env
                               (benchmark_params 2 4 3) 0 5
                               (initial busy_env
                                  (benchmark_params 2 4 3)))))))).
Proof.
  apply (loop_exit_reason busy_env (benchmark_params 2 4 3) 0 5
           (initial busy_env (benchmark_params 2 4 3))).
  vm_compute. reflexivity.
Defined.

(** ** The summary aggregator (lines 197-292) *)

(** X12.  The columns a report needs.  The aggregator returns a report
    only if the error code and each of the six tracked fields occur in
    at least one record of the list; a field that no record carries,
    such as a throughput that every drain left unset, ends it in a
    raise. *)
Theorem report_requires_every_column (ms : list metrics)
    (start_time end_time : Q) (r : report) :
  metrics_summary ms start_time end_time = Ok r ->
  forall key, key ∈ ERROR_CODE :: tracked_keys ->
              exists m, m ∈ ms /\ is_Some (m !! key).
Proof.
  intros H key Hk. apply elem_of_columns.
  unfold metrics_summary in H.
  apply result_bind_Ok in H as (df' & Hdf & H).
  unfold without_errored in Hdf.
  apply result_bind_Ok in Hdf as (col0 & Hcol0 & Hdf).
  apply column_Ok in Hcol0 as [Hin _]. inversion Hdf; subst df'; clear Hdf.
  apply result_bind_Ok in H as (stats & Hstats & _).
  apply elem_of_cons in Hk as [->|Hk]; [exact Hin|].
  exact (summarize_keys_columns _ _ _ Hstats key Hk).
Qed.

Lemma report_requires_every_column_witness :
  exists r,
    metrics_summary [normalized_record; errored_record] 0 10 = Ok r
    /\ exists m, m ∈ [normalized_record; errored_record]
                 /\ is_Some (m !! REQ_OUTPUT_THROUGHPUT).
Proof.
  assert (H : exists r,
             metrics_summary [normalized_record; errored_record] 0 10 = Ok r)
    by (eexists; vm_compute; reflexivity).
  destruct H as [r H]. exists r. split; [exact H|].
  apply (report_requires_every_column _ 0 10 r H REQ_OUTPUT_THROUGHPUT).
  set_solver.
Defined.

Lemma errors_and_completed (ms : list metrics) :
  (length (dropna ((fun m : metrics => m !! ERROR_CODE) <$> ms))
   + length (non_errored ms))%nat = length ms.
Proof.
  unfold dropna, non_errored. induction ms as [|m ms IH]; [reflexivity|].
  cbn [fmap list_fmap omap list_omap List.filter].
  destruct (isna (m !! ERROR_CODE)) eqn:Hna.
  - cbn. lia.
  - destruct (m !! ERROR_CODE); [cbn; lia|discriminate].
Qed.

(** X13.  The counts of a report add up: the number of requests started
    is the length of the list, and it is the number of errors (records
    with an error code) plus the number of completed requests (records
    without). *)
Theorem started_is_errors_plus_completed (ms : list metrics)
    (start_time end_time : Q) (r : report) :
  metrics_summary ms start_time end_time = Ok r ->
  num_requests_started r = Z.of_nat (length ms)
  /\ num_requests_started r = number_errors r + num_completed_requests r
  /\ 0 <= number_errors r
  /\ 0 <= num_completed_requests r.
Proof.
  intros H.
  apply metrics_summary_Ok in H
    as (_ & _ & total & _ & _ & Hs & He & _ & Hc & _).
  pose proof (errors_and_completed ms).
  rewrite Hs, He, Hc. repeat split; lia.
Qed.

Lemma started_is_errors_plus_completed_witness :
  exists r,
    metrics_summary [normalized_record; errored_record] 0 10 = Ok r
    /\ num_requests_started r = 2
    /\ num_requests_started r = number_errors r + num_completed_requests r.
Proof.
  assert (H : exists r,
             metrics_summary [normalized_record; errored_record] 0 10 = Ok r)
    by (eexists; vm_compute; reflexivity).
  destruct H as [r H]. exists r. split; [exact H|].
  destruct (started_is_errors_plus_completed _ _ _ _ H) as (Hs & Hsum & _).
  split; [exact Hs|exact Hsum].
Defined.

(** X14.  The error rate of a report can be recomputed from the report:
    it is the float [number of errors / number of requests started], it
    lies between 0 and 1, it is 0 when no record has an error code and 1
    when every record has one. *)
Theorem error_rate_of_report (ms : list metrics) (start_time end_time : Q)
    (r : report) :
  metrics_summary ms start_time end_time = Ok r ->
  let rate :=
    (inject_Z (number_errors r) / inject_Z (num_requests_started r))%Q in
  error_rate r = VFloat rate
  /\ (0 <= rate <= 1)%Q
  /\ (number_errors r = 0 -> (rate == 0)%Q)
  /\ (num_completed_requests r = 0 -> (rate == 1)%Q).
Proof.
  intros H rate.
  destruct (error_rate_reported ms start_time end_time r H)
    as (Hne & Hrate & Hbounds & Hzero).
  pose proof H as H'.
  apply metrics_summary_Ok in H'
    as (_ & _ & total & _ & _ & Hs & He & _ & Hc & _).
  pose proof (errors_and_completed ms) as Hsum.
  unfold rate. rewrite Hs, He.
  split; [exact Hrate|]. split; [exact Hbounds|].
  split; [intros H0; apply Hzero; exact H0|].
  intros H0. rewrite Hc in H0.
  assert (Hlen : length (non_errored ms) = 0%nat) by lia.
  rewrite Hlen, Nat.add_0_r in Hsum. rewrite Hsum.
  assert (Hpos : ~ (inject_Z (Z.of_nat (length ms)) == 0)%Q).
  { destruct ms; [done|]. cbn [length].
    change 0%Q with (inject_Z 0). rewrite inject_Z_injective. lia. }
  now field.
Qed.

Lemma error_rate_of_report_witness :
  exists r,
    metrics_summary [normalized_record; errored_record] 0 10 = Ok r
    /\ error_rate r
       = VFloat (inject_Z (number_errors r)
                 / inject_Z (num_requests_started r))%Q.
Proof.
  assert (H : exists r,
             metrics_summary [normalized_record; errored_record] 0 10 = Ok r)
    by (eexists; vm_compute; reflexivity).
  destruct H as [r H]. exists r. split; [exact H|].
  exact (proj1 (error_rate_of_report _ _ _ _ H)).
Defined.

Lemma flatten_value_leaves (v : value) :
  Forall (fun x => is_list x = false) (flatten_value v).
Proof.
  revert v. fix IH 1. intros [| z | q | s | l]; cbn [flatten_value];
    try (constructor; [reflexivity|constructor]).
  induction l as [|x l IHl]; cbn [List.flat_map]; [constructor|].
  apply Forall_app. split; [apply IH|exact IHl].
Qed.

Lemma flatten_value_leaf (v : value) :
  is_list v = false -> flatten_value v = [v].
Proof. destruct v; [reflexivity..|discriminate]. Qed.

Lemma flatten_flat (col : list (option value)) :
  Forall (fun o => holds_list o = false) col -> flatten col = col.
Proof.
  unfold flatten. induction 1 as [|o col Ho _ IH]; [reflexivity|].
  cbn [List.flat_map]. rewrite IH. destruct o as [v|]; [|reflexivity].
  cbn in Ho. rewrite (flatten_value_leaf v Ho). reflexivity.
Qed.

Lemma flatten_leaves (col : list (option value)) :
  Forall (fun o => holds_list o = false) (flatten col).
Proof.
  unfold flatten. induction col as [|o col IH]; [constructor|].
  cbn [List.flat_map]. apply Forall_app. split; [|exact IH].
  destruct o as [v|]; [|constructor; [reflexivity|constructor]].
  apply Forall_fmap. exact (flatten_value_leaves v).
Qed.

(** X15.  The generator [flatten] of the aggregator.  What it yields
    holds no list any more, however deeply the column nested them; a
    column without lists, strings and missing entries included, comes
    out unchanged; flattening twice changes nothing; and the items of
    two columns put end to end are the items of the first followed by
    the items of the second. *)
Theorem flatten_yields_leaves (col col' : list (option value)) :
  Forall (fun o => holds_list o = false) (flatten col)
  /\ (Forall (fun o => holds_list o = false) col -> flatten col = col)
  /\ flatten (flatten col) = flatten col
  /\ flatten (col ++ col') = flatten col ++ flatten col'.
Proof.
  split; [apply flatten_leaves|]. split; [apply flatten_flat|].
  split; [apply flatten_flat, flatten_leaves|].
  unfold flatten. apply List.flat_map_app.
Qed.

Lemma flatten_yields_leaves_witness :
  flatten [Some (VStr "ab"); None; Some (VFloat 1)]
  = [Some (VStr "ab"); None; Some (VFloat 1)].
Proof.
  apply (proj1 (proj2 (flatten_yields_leaves
                         [Some (VStr "ab"); None; Some (VFloat 1)] []))).
  repeat constructor.
Defined.

(** A nested column, as a request that recorded one latency per token
    would give it. *)
Example flatten_nested :
  flatten [Some (VList [VFloat 1; VList [VFloat 2; VStr "x"]]); None;
           Some (VList [])]
  = [Some (VFloat 1); Some (VFloat 2); Some (VStr "x"); None].
Proof. reflexivity. Qed.

Lemma metrics_summary_per_key (ms : list metrics) (start_time end_time : Q)
    (r : report) :
  metrics_summary ms start_time end_time = Ok r ->
  summarize_keys {| columns := columns (pd_DataFrame ms);
                    rows := non_errored ms |} tracked_keys
  = Ok (per_key r).
Proof.
  unfold metrics_summary. intros H.
  apply result_bind_Ok in H as (df' & Hdf & H).
  unfold without_errored in Hdf.
  apply result_bind_Ok in Hdf as (col0 & _ & Hdf).
  inversion Hdf; subst df'; clear Hdf.
  apply result_bind_Ok in H as (stats & Hstats & H).
  apply result_bind_Ok in H as (codes & _ & H).
  apply result_bind_Ok in H as (rate & _ & H).
  apply result_bind_Ok in H as (u & _ & H).
  apply result_bind_Ok in H as (tokens & _ & H).
  apply result_bind_Ok in H as (total & _ & H).
  apply result_bind_Ok in H as (per_sec & _ & H).
  apply result_bind_Ok in H as (per_min & _ & H).
  inversion H; subst r. exact Hstats.
Qed.

(** The statistics read the rows, and of the columns only whether the
    key is one. *)
Lemma summarize_keys_rows (cols cols' : gset metric_key)
    (rs : list metrics) (keys : list metric_key) :
  (forall key, key ∈ keys -> key ∈ cols /\ key ∈ cols') ->
  summarize_keys {| columns := cols; rows := rs |} keys
  = summarize_keys {| columns := cols'; rows := rs |} keys.
Proof.
  induction keys as [|key keys IH]; intros H; [reflexivity|].
  cbn [summarize_keys]. rewrite IH by (intros k Hk; apply H; now right).
  destruct (H key) as [H1 H2]; [left|].
  unfold summarize_key, column. cbn [columns rows].
  destruct (decide (key ∈ cols)); [|done].
  destruct (decide (key ∈ cols')); [|done]. reflexivity.
Qed.

Lemma non_errored_idempotent (ms : list metrics) :
  non_errored (non_errored ms) = non_errored ms.
Proof.
  unfold non_errored. induction ms as [|m ms IH]; [reflexivity|].
  cbn [List.filter]. destruct (isna (m !! ERROR_CODE)) eqn:Hna; [|exact IH].
  cbn [List.filter]. rewrite Hna, IH. reflexivity.
Qed.

(** X16.  Errored records feed neither the statistics nor the rates.
    For complete records of which at least one has no error code, the
    report of the whole list and the report of its records without
    error code have the same statistics for every tracked field, the
    same aggregate throughput, the same count of completed requests and
    the same completed requests per minute. *)
Theorem errored_records_do_not_count (ms : list metrics)
    (start_time end_time : Q) (r : report) :
  metrics_summary ms start_time end_time = Ok r ->
  List.forallb complete_record ms = true ->
  non_errored ms <> [] ->
  exists r',
    metrics_summary (non_errored ms) start_time end_time = Ok r'
    /\ per_key r' = per_key r
    /\ output_throughput r' = output_throughput r
    /\ num_completed_requests r' = num_completed_requests r
    /\ completed_requests_per_min r' = completed_requests_per_min r
    /\ number_errors r' = 0.
Proof.
  intros H Hall Hne.
  assert (Hall' : Forall (fun r => complete_record r = true) ms).
  { apply Forall_forall. intros m Hm.
    rewrite List.forallb_forall in Hall. apply Hall, list_elem_of_In, Hm. }
  pose proof (non_errored_complete ms Hall') as Hc.
  pose proof (metrics_summary_per_key _ _ _ _ H) as Hstats.
  pose proof H as Hinv.
  apply metrics_summary_Ok in Hinv
    as (_ & Hz & total & Htotal & Hthr & _ & _ & _ & Hcnt & Hmin).
  destruct (metrics_summary_complete (non_errored ms) start_time end_time
              Hne Hc) as (stats' & Hrun).
  rewrite Hz, non_errored_idempotent in Hrun.
  assert (Hms : ms <> []) by (intros ->; now apply Hne).
  rewrite (token_column_sum ms (non_errored ms) Hms Hall') in Htotal.
  inversion Htotal; subst total; clear Htotal.
  pose proof (metrics_summary_per_key _ _ _ _ Hrun) as Hstats'.
  rewrite non_errored_idempotent in Hstats'. cbn [per_key] in Hstats'.
  rewrite (summarize_keys_rows _ (columns (pd_DataFrame ms))) in Hstats'.
  - rewrite Hstats in Hstats'. inversion Hstats'; subst stats'.
    eexists. split; [exact Hrun|]. cbn.
    rewrite Hthr, Hcnt, Hmin. repeat split; try reflexivity.
    assert (Hnone : dropna ((fun m : metrics => m !! ERROR_CODE)
                              <$> non_errored ms) = []).
    { clear. unfold dropna, non_errored.
      induction ms as [|m ms IH]; [reflexivity|]. cbn [List.filter].
      destruct (isna (m !! ERROR_CODE)) eqn:Hna; [|exact IH].
      cbn [fmap list_fmap omap list_omap]. rewrite Hna. exact IH. }
    rewrite Hnone. reflexivity.
  - intros key Hk. split.
    + apply elem_of_columns. destruct (non_errored ms) as [|m0 l] eqn:Hl;
        [done|]. exists m0. split; [left|].
      apply Forall_cons in Hc as [Hm0 _].
      apply number_or_none_is_Some. now apply complete_record_tracked.
    + exact (summarize_keys_columns _ _ _ Hstats key Hk).
Qed.

Lemma errored_records_do_not_count_witness :
  exists r r',
    metrics_summary [normalized_record; errored_record] 0 10 = Ok r
    /\ metrics_summary (non_errored [normalized_record; errored_record])
         0 10 = Ok r'
    /\ per_key r' = per_key r.
Proof.
  assert (H : exists r,
             metrics_summary [normalized_record; errored_record] 0 10 = Ok r)
    by (eexists; vm_compute; reflexivity).
  destruct H as [r H]. exists r.
  destruct (errored_records_do_not_count _ _ _ _ H
              ltac:(vm_compute; reflexivity) ltac:(discriminate))
    as (r' & Hr' & Hk & _).
  exists r'. auto.
Defined.

(** ** The script entry point (lines 360-489) *)

Lemma split_length (sep : ascii) (s : string) :
  length (script.split sep s) = S (count_char sep s).
Proof.
  induction s as [|c s IH]; [reflexivity|].
  cbn [script.split count_char]. destruct (Ascii.eqb c sep).
  - cbn [length]. rewrite IH. reflexivity.
  - destruct (script.split sep s) as [|w ws]; [discriminate|].
    cbn [length] in *. exact IH.
Qed.

Lemma parse_items_Ok (items : list string) (md0 : gmap string string) :
  (exists md, script.parse_items items md0 = Ok md)
  <-> Forall (fun item => count_char "=" item = 1%nat) items.
Proof.
  revert md0. induction items as [|item items IH]; intros md0.
  - split; [constructor|eauto].
  - cbn [script.parse_items].
    pose proof (split_length "=" item) as Hlen.
    destruct (script.split "=" item) as [|k [|v [|x rest]]] eqn:Hs;
      cbn [length] in Hlen.
    + discriminate.
    + split; [intros [md H]; discriminate|].
      intros H. apply Forall_cons in H as [H _]. lia.
    + rewrite IH. split.
      * intros H. constructor; [lia|exact H].
      * intros H. now apply Forall_cons in H as [_ H].
    + split; [intros [md H]; discriminate|].
      intros H. apply Forall_cons in H as [H _]. lia.
Qed.

(** X17.  The metadata option.  The loop that turns [--metadata] into a
    dictionary succeeds exactly when the string is empty, which gives
    the empty dictionary, or every item between two commas holds one
    [=] and no more; any other string ends in [ValueError]. *)
Theorem metadata_items_need_one_equals (s : string) :
  ((exists md, script.parse_metadata (VStr s) = Ok md)
   <-> s = ""%string
       \/ Forall (fun item => count_char "=" item = 1%nat)
            (script.split "," s))
  /\ script.parse_metadata (VStr "") = Ok ∅
  /\ ((forall md, script.parse_metadata (VStr s) <> Ok md) ->
      script.parse_metadata (VStr s) = Raise ValueError).
Proof.
  split; [|split; [reflexivity|]].
  - unfold script.parse_metadata. cbn [truthy].
    destruct (String.eqb_spec s "") as [->|Hne]; cbn [negb].
    + split; [auto|eauto].
    + rewrite parse_items_Ok. split; [auto|]. intros [H|H]; [done|exact H].
  - unfold script.parse_metadata. cbn [truthy].
    destruct (String.eqb s ""); cbn [negb]; [intros H; now destruct (H ∅)|].
    generalize (∅ : gmap string string).
    induction (script.split "," s) as [|item items IH]; intros md0 H.
    + now destruct (H md0).
    + cbn [script.parse_items] in *.
      destruct (script.split "=" item) as [|k [|v [|x rest]]];
        try reflexivity.
      apply IH. exact H.
Qed.

Lemma metadata_items_need_one_equals_witness :
  exists md, script.parse_metadata (VStr "name=foo,bar=1") = Ok md.
Proof.
  apply (proj1 (metadata_items_need_one_equals "name=foo,bar=1")).
  right. repeat constructor.
Defined.

(** ** What the run hands back (lines 83-194) *)

Lemma normalize_in_loop_entries (n : Z) (m : metrics) :
  0 <= n -> (normalize_in_loop n m).1 = Ok tt ->
  normalized (normalize_in_loop n m).2.
Proof.
  intros Hn. unfold normalized. unfold_stmt. step_stmt;
    intros _; (split; [exists n; split; [exact Hn|]|]);
    simplify_map_eq; eauto 10.
Qed.

Lemma normalize_final_entries (n : Z) (m : metrics) :
  0 <= n -> (normalize_final n m).1 = Ok tt ->
  normalized (normalize_final n m).2.
Proof.
  intros Hn. unfold normalized. unfold_stmt. step_stmt;
    intros _; (split; [exists n; split; [exact Hn|]|]);
    simplify_map_eq; eauto 10.
Qed.

Lemma drain_normalized (E : env) (norm : Z -> stmt unit) (outs : list out)
    (ms : list metrics) :
  (forall n m, 0 <= n -> (norm n m).1 = Ok tt -> normalized (norm n m).2) ->
  drain E norm outs = Ok ms -> Forall normalized ms.
Proof.
  intros Hnorm. revert ms. induction outs as [|[[m text] cfg] outs IH];
    intros ms; cbn [drain].
  - intros H. inversion H. constructor.
  - intros H. apply result_bind_Ok in H as (m' & Hm & H).
    apply result_bind_Ok in H as (ms' & Hms & H).
    inversion H; subst ms. constructor; [|now apply IH].
    unfold normalize_out, run_normalizer in Hm.
    pose proof (Hnorm (Z.of_nat (get_token_length E text)) m) as Hn.
    destruct (norm _ m) as [[[]|e] m1]; [|discriminate].
    inversion Hm; subst m'. apply Hn; [lia|reflexivity].
Qed.

(** X19.  What the run hands back.  When
    [get_token_throughput_latencies] returns, the list of records is
    not empty, every record in it went through a drain (it has its
    output token count, a non negative integer, and the entries the
    normaliser reads and writes), and the report counts exactly these
    records as requests started. *)
Theorem returned_records_are_normalized (E : env) (P : params)
    (summary : run_metadata) (records : list metrics) :
  get_token_throughput_latencies E P = Some (Ok (summary, records)) ->
  records <> []
  /\ Forall normalized records
  /\ num_requests_started (md_results summary) = Z.of_nat (length records).
Proof.
  unfold get_token_throughput_latencies, benchmark_run.
  destruct (scheduler_loop E P (monotonic E 0) (loop_fuel (initial E P))
              (initial E P)) as [[st|e]|] eqn:Hloop; try discriminate.
  intros H. injection H as H.
  apply result_bind_Ok in H as ([t st'] & Hfin & H).
  apply result_bind_Ok in H as (ret & Hsum & H).
  inversion H; subst summary records; clear H. cbn [md_results].
  assert (Hinv : Forall normalized (completed_requests st)).
  { apply (scheduler_loop_invariant E P (monotonic E 0)
             (fun s => Forall normalized (completed_requests s)))
      with (fuel := loop_fuel (initial E P)) (st := initial E P);
      [| |constructor|exact Hloop].
    - intros s s1 b Hs Ht.
      destruct (loop_test_state _ _ _ _ _ _ Ht) as (_ & _ & _ & -> & _).
      exact Hs.
    - intros s s' Hs Hb.
      destruct (loop_body_Ok _ _ _ _ Hb) as (_ & _ & _ & _ & cfg & Hcase).
      destruct (is_multiple _ _).
      + destruct Hcase as (ms & Hd & _ & -> & _).
        apply Forall_app. split; [exact Hs|].
        exact (drain_normalized E _ _ _ normalize_in_loop_entries Hd).
      + destruct Hcase as (_ & -> & _). exact Hs. }
  unfold final_drain, call_get_next_ready in Hfin.
  apply result_bind_Ok in Hfin as (ms & Hd & Hfin).
  inversion Hfin; subst t st'; clear Hfin.
  cbn [extend_completed completed_requests] in *.
  pose proof Hsum as Hinv'.
  apply metrics_summary_Ok in Hinv' as (Hcol & _ & total & _ & _ & Hs & _).
  split; [|split; [|exact Hs]].
  - apply elem_of_columns in Hcol as (m & Hm & _). intros Hnil.
    rewrite Hnil in Hm. inversion Hm.
  - apply Forall_app. split; [exact Hinv|].
    exact (drain_normalized E _ _ _ normalize_final_entries Hd).
Qed.

Lemma returned_records_are_normalized_witness :
  exists summary records,
    get_token_throughput_latencies busy_env (benchmark_params 1 2 90)
      = Some (Ok (summary, records))
    /\ records <> [] /\ Forall normalized records.
Proof.
  assert (H : exists summary records,
             get_token_throughput_latencies busy_env (benchmark_params 1 2 90)
             = Some (Ok (summary, records)))
    by (do 2 eexists; vm_compute; reflexivity).
  destruct H as (summary & records & H). exists summary, records.
  split; [exact H|].
  destruct (returned_records_are_normalized _ _ _ _ H) as (Hne & Hall & _).
  split; assumption.
Defined.

Lemma loop_body_idle_raise (E : env) (P : params) (st : sched) (e : exn) :
  (forall k, get_next_ready E k = []) ->
  loop_body E P st = Raise e -> e = IndexError \/ e = ZeroDivisionError.
Proof.
  intros Hidle. unfold loop_body, mbind, result_mbind, result_bind.
  destruct (py_pop (num_output_tokens_list st)) as [[n tokens']|e1] eqn:Htok.
  - destruct (py_pop (prompts st)) as [[pr prompts']|e2] eqn:Hpr.
    + unfold drain_step. cbn [iter].
      destruct (num_concurrent_requests P =? 0);
        [intros H; inversion H; auto|].
      destruct (_ mod _ =? 0); [|discriminate].
      unfold call_get_next_ready. rewrite Hidle. discriminate.
    + unfold py_pop in Hpr. destruct (reverse (prompts st));
        [|discriminate]. inversion Hpr. intros H. inversion H; auto.
  - unfold py_pop in Htok. destruct (reverse (num_output_tokens_list st));
      [|discriminate]. inversion Htok. intros H. inversion H; auto.
Qed.

Lemma scheduler_loop_idle (E : env) (P : params) (start_time : Q)
    (fuel : nat) :
  (forall k, get_next_ready E k = []) ->
  forall st r,
    completed_requests st = [] ->
    scheduler_loop E P start_time fuel st = Some r ->
    match r with
    | Ok st' => completed_requests st' = []
    | Raise e => e = IndexError \/ e = ZeroDivisionError
    end.
Proof.
  intros Hidle. induction fuel as [|fuel IH]; intros st r Hc; [discriminate|].
  cbn [scheduler_loop].
  destruct (loop_test E P start_time st) as [b st1] eqn:Ht.
  destruct (loop_test_state _ _ _ _ _ _ Ht) as (_ & _ & _ & Hc1 & _).
  rewrite Hc in Hc1. destruct b.
  - destruct (loop_body E P st1) as [st2|e] eqn:Hb.
    + apply IH.
      destruct (loop_body_Ok _ _ _ _ Hb) as (_ & _ & _ & _ & cfg & Hcase).
      destruct (is_multiple _ _).
      * destruct Hcase as (ms & Hd & _ & -> & _).
        rewrite Hidle in Hd. inversion Hd. rewrite Hc1. reflexivity.
      * destruct Hcase as (_ & -> & _). exact Hc1.
    + intros H. inversion H; subst r.
      exact (loop_body_idle_raise E P st1 e Hidle Hb).
  - intros H. inversion H; subst r. exact Hc1.
Qed.

(** X20.  A run in which nothing ever finishes.  If the launcher never
    has a result ready, [get_token_throughput_latencies] returns no
    summary, whatever its parameters: it raises [IndexError] when the
    pools run out, [ZeroDivisionError] when the concurrency is zero,
    and otherwise, the loop having ended on the timeout, [KeyError]
    from the summary of an empty list. *)
Theorem idle_run_raises (E : env) (P : params) :
  (forall k, get_next_ready E k = []) ->
  exists e,
    get_token_throughput_latencies E P = Some (Raise e)
    /\ (e = IndexError \/ e = ZeroDivisionError \/ e = KeyError).
Proof.
  intros Hidle. unfold get_token_throughput_latencies, benchmark_run.
  destruct (scheduler_loop_terminates E P (monotonic E 0)
              (loop_fuel (initial E P)) (initial E P)) as [r Hr];
    [unfold loop_fuel; lia|].
  rewrite Hr.
  pose proof (scheduler_loop_idle E P _ _ Hidle (initial E P) r
                (eq_refl : completed_requests (initial E P) = []) Hr)
    as Hcase.
  destruct r as [st|e].
  - exists KeyError. split; [|auto].
    unfold final_drain, call_get_next_ready. rewrite Hidle.
    cbn. rewrite Hcase. cbn. rewrite metrics_summary_nil. reflexivity.
  - exists e. split; [reflexivity|tauto].
Qed.

Lemma idle_run_raises_witness :
  exists e,
    get_token_throughput_latencies idle_env (benchmark_params 1 5 2)
      = Some (Raise e)
    /\ (e = IndexError \/ e = ZeroDivisionError \/ e = KeyError).
Proof. apply idle_run_raises. reflexivity. Defined.

(** X21.  The script never runs a benchmark.  Whatever argparse makes
    of the command line, a namespace or a raise, and whatever
    [ray.init] does, the [__main__] block ends in a raise,
    and the same raise whatever the body of [run_token_benchmark] is:
    either a step before the call raises, or the call itself fails to
    bind. *)
Theorem script_never_runs_the_benchmark (ray_init : result unit)
    (parsed : result script.namespace) :
  exists e,
    forall (A : Type)
           (body : script.namespace -> gmap string string -> result A),
      script.main ray_init parsed body = Raise e.
Proof.
  unfold script.main.
  destruct ray_init as [[]|e]; [|exists e; reflexivity].
  cbn [mbind result_mbind result_bind].
  destruct parsed as [args|e]; [|exists e; reflexivity].
  cbn [mbind result_mbind result_bind].
  destruct (script.getattr args "metadata") as [md|e];
    [|exists e; reflexivity].
  cbn [mbind result_mbind result_bind].
  destruct (script.parse_metadata md) as [um|e]; [|exists e; reflexivity].
  cbn [mbind result_mbind result_bind].
  destruct (script.eval_arguments args script.main_call) as [[]|e];
    [|exists e; reflexivity].
  exists TypeError. reflexivity.
Qed.
